(** * Patent claims processor: classification and sheet transformations

    A shallow embedding of [app.py]: the claim classifier
    [clean_claim_text], the details-sheet transformation
    [process_details_sheet] and the info-sheet build [process_info_sheet].

    The strings of the details sheet and the publication and application
    numbers are modelled by [string]; a character is identified with its
    code point, and the characters above 127 stand for the non-ASCII code
    points (of such a character the classifier only asks whether it is
    white space and whether it is below 128).  The text of the column
    'Claim number', in which the decimal digits of every script count, is
    given by its code points.  What the installed libraries decide and the
    source does not (the treatment of a missing value by [astype(str)], the
    Unicode table of decimal digits) is a parameter of the model. *)

From Stdlib Require Import String Ascii List ZArith NArith Bool Lia Arith.
From Stdlib Require Import Sorted OrdersEx RelationClasses.
Import ListNotations.

Local Open Scope string_scope.
Local Open Scope list_scope.

(** ** Python values held by spreadsheet cells *)

(** What openpyxl and pandas hand over for a cell: [None] for an empty cell
    read by openpyxl, the float NaN for an empty cell read by pandas, text,
    integers and booleans. *)
Inductive pyval : Type :=
| PNone
| PNaN
| PStr (s : string)
| PInt (z : Z)
| PBool (b : bool).

(** Python truthiness, as tested by [if v:] and [not v]. *)
Definition truthy (v : pyval) : bool :=
  match v with
  | PNone => false
  | PNaN => true
  | PStr s => negb (s =? "")
  | PInt z => negb (z =? 0)%Z
  | PBool b => b
  end.

(** Decimal digits of a positive number, least significant first; the fuel
    bounds the number of digits. *)
Fixpoint digits_rev (fuel : nat) (n : N) : list ascii :=
  match fuel with
  | O => []
  | S fuel' =>
      let d := ascii_of_N (48 + N.modulo n 10) in
      if (n <? 10)%N then [d] else d :: digits_rev fuel' (N.div n 10)
  end.

Definition string_of_N (n : N) : string :=
  string_of_list_ascii (rev (digits_rev (S (N.to_nat (N.log2 n))) n)).

(** [str(z)] for a Python integer. *)
Definition str_int (z : Z) : string :=
  match z with
  | Z0 => "0"
  | Zpos p => string_of_N (Npos p)
  | Zneg p => "-" ++ string_of_N (Npos p)
  end.

(** [str(v)]. *)
Definition py_str (v : pyval) : string :=
  match v with
  | PNone => "None"
  | PNaN => "nan"
  | PStr s => s
  | PInt z => str_int z
  | PBool true => "True"
  | PBool false => "False"
  end.

(** ** Characters *)

Definition ord (c : ascii) : N := N_of_ascii c.

(** [str.isspace] on one character: tab, line feed, vertical tab, form
    feed, carriage return, the four separators 28..31, space, and the
    non-ASCII white space (NEL and no-break space stand for it). *)
Definition is_space (c : ascii) : bool :=
  let n := ord c in
  ((9 <=? n) && (n <=? 13) || (28 <=? n) && (n <=? 32)
   || (n =? 133) || (n =? 160))%N.

Definition is_digit (c : ascii) : bool :=
  let n := ord c in ((48 <=? n) && (n <=? 57))%N.

Definition is_upper (c : ascii) : bool :=
  let n := ord c in ((65 <=? n) && (n <=? 90))%N.

Definition is_lower (c : ascii) : bool :=
  let n := ord c in ((97 <=? n) && (n <=? 122))%N.

(** The class [\w] of the regular expressions, on ASCII text. *)
Definition is_word (c : ascii) : bool :=
  is_digit c || is_upper c || is_lower c || (ord c =? 95)%N.

Definition lower_char (c : ascii) : ascii :=
  if is_upper c then ascii_of_N (ord c + 32) else c.

(** ** String operations of the Python runtime *)

Fixpoint str_filter (p : ascii -> bool) (s : string) : string :=
  match s with
  | EmptyString => EmptyString
  | String c s' => if p c then String c (str_filter p s') else str_filter p s'
  end.

Fixpoint str_forall (p : ascii -> bool) (s : string) : bool :=
  match s with
  | EmptyString => true
  | String c s' => p c && str_forall p s'
  end.

Fixpoint str_map (f : ascii -> ascii) (s : string) : string :=
  match s with
  | EmptyString => EmptyString
  | String c s' => String (f c) (str_map f s')
  end.

(** [s.lower()]. *)
Definition lower (s : string) : string := str_map lower_char s.

(** [s.lstrip()]. *)
Fixpoint lstrip (s : string) : string :=
  match s with
  | EmptyString => EmptyString
  | String c s' => if is_space c then lstrip s' else s
  end.

(** [s.rstrip()]. *)
Fixpoint rstrip (s : string) : string :=
  match s with
  | EmptyString => EmptyString
  | String c s' =>
      match rstrip s' with
      | EmptyString => if is_space c then EmptyString else String c EmptyString
      | r => String c r
      end
  end.

(** [s.strip()]. *)
Definition strip (s : string) : string := rstrip (lstrip s).

(** [needle in s] for strings. *)
Fixpoint contains (needle s : string) : bool :=
  prefix needle s
  || match s with
     | EmptyString => false
     | String _ s' => contains needle s'
     end.

(** [s.split(sep)] for a one-character separator: the current piece is
    accumulated in [cur]. *)
Fixpoint split_aux (sep : ascii) (cur : string) (s : string) : list string :=
  match s with
  | EmptyString => [cur]
  | String c s' =>
      if Ascii.eqb c sep then cur :: split_aux sep EmptyString s'
      else split_aux sep (cur ++ String c EmptyString) s'
  end.

Definition split (sep : ascii) (s : string) : list string :=
  split_aux sep EmptyString s.

(** [sep.join(l)]. *)
Fixpoint join (sep : string) (l : list string) : string :=
  match l with
  | [] => EmptyString
  | [x] => x
  | x :: rest => x ++ sep ++ join sep rest
  end.

(** ** The classifier *)

(** [remove_non_ascii] on a string (line 11). *)
Definition remove_non_ascii (s : string) : string :=
  str_filter (fun x => (ord x <? 128)%N) s.

(** *** The pattern [\bclaims?\b\s*\d+] with [re.IGNORECASE]

    The matcher follows the pattern piece by piece.  [prev] is the
    character before the current position, if any. *)

Definition word_opt (c : option ascii) : bool :=
  match c with Some a => is_word a | None => false end.

Definition head (s : string) : option ascii :=
  match s with EmptyString => None | String c _ => Some c end.

(** [\b] between [prev] and the rest [s]. *)
Definition boundary (prev : option ascii) (s : string) : bool :=
  xorb (word_opt prev) (word_opt (head s)).

(** [\s*\d+] at the start of [s]: greedy white space gives nothing back
    that a digit could use, since no digit is white space. *)
Fixpoint spaces_then_digit (s : string) : bool :=
  match s with
  | EmptyString => false
  | String c s' => if is_space c then spaces_then_digit s' else is_digit c
  end.

(** A literal, ignoring case, at the start of [s]: the rest of [s] and the
    last character consumed. *)
Fixpoint literal_ci (lit s : string) (prev : option ascii)
  : option (option ascii * string) :=
  match lit with
  | EmptyString => Some (prev, s)
  | String l lit' =>
      match s with
      | EmptyString => None
      | String c s' =>
          if Ascii.eqb (lower_char c) l then literal_ci lit' s' (Some c)
          else None
      end
  end.

(** The tail [\b\s*\d+] of the pattern. *)
Definition tail_at (prev : option ascii) (s : string) : bool :=
  boundary prev s && spaces_then_digit s.

(** The whole pattern anchored at the start of [s]. *)
Definition match_at (prev : option ascii) (s : string) : bool :=
  boundary prev s
  && match literal_ci "claim" s prev with
     | None => false
     | Some (p1, s1) =>
         (* [s?] is greedy: with the [s] first, then without *)
         match literal_ci "s" s1 p1 with
         | Some (p2, s2) => tail_at p2 s2 || tail_at p1 s1
         | None => tail_at p1 s1
         end
     end.

(** [re.search] of the pattern: some position matches. *)
Fixpoint search_from (prev : option ascii) (s : string) : bool :=
  match_at prev s
  || match s with
     | EmptyString => false
     | String c s' => search_from (Some c) s'
     end.

Definition re_search_claim (s : string) : bool := search_from None s.

(** *** Tags *)

Definition crm_needles : list string :=
  ["non-transitory computer-readable medium"; "computer-readable medium";
   "computer program"; "computer"].

(** [comments.append(tag)] when the condition holds. *)
Definition append_if (cond : bool) (tag : string) (comments : list string)
  : list string :=
  if cond then comments ++ [tag] else comments.

Definition mem (x : string) (l : list string) : bool :=
  existsb (String.eqb x) l.

(** The tags of an already normalised text (lines 20-39). *)
Definition tags_of (text : string) : list string :=
  let comments := [] in
  let comments := append_if (contains "(canceled)" (lower text)) "cancel" comments in
  let comments :=
    append_if (existsb (fun x => contains x (lower text)) crm_needles) "CRM" comments in
  let comments := append_if (contains "delete" (lower text)) "delete" comments in
  let comments := append_if (contains "paragraph" (lower text)) "paragraph" comments in
  let comments := append_if (contains "article" (lower text)) "article" comments in
  let comments := append_if (contains "clause" (lower text)) "clause" comments in
  let comments := append_if (re_search_claim text) "probable dependent" comments in
  let comments :=
    append_if (negb (mem "probable dependent" comments)
               && (String.length text <? 200)%nat)
      "probable dependent" comments in
  comments.

(** [clean_claim_text] (lines 14-41). *)
Definition clean_claim_text (claim : pyval) : string * list string :=
  match claim with
  | PStr s =>
      if s =? "" then ("", [])
      else
        let text := strip s in
        let text := remove_non_ascii text in
        (text, tags_of text)
  | _ => ("", [])
  end.

(** The tags that send a fragment to the rejected sheet (line 65). *)
Definition reject_tags : list string :=
  ["cancel"; "CRM"; "delete"; "paragraph"; "article"; "clause"].

(** [any(c in comments for c in [...])]. *)
Definition rejected (comments : list string) : bool :=
  existsb (fun c => mem c comments) reject_tags.

(** ** Failures *)

(** The exceptions the modelled code can raise: [list.index] on a missing
    column name raises [ValueError] (the schema error of the
    specification), indexing a row out of range raises [IndexError], the
    conversion to [Int64] raises [OverflowError], sorting or joining a set
    that holds a value that is not a string raises [TypeError], and a
    column missing from a table raises [KeyError]. *)
Inductive error : Type :=
| ValueError
| IndexError
| OverflowError
| TypeError
| KeyError.

Inductive result (A : Type) : Type :=
| Ok (a : A)
| Err (e : error).

Arguments Ok {A} a.
Arguments Err {A} e.

Definition bind {A B : Type} (r : result A) (k : A -> result B) : result B :=
  match r with
  | Ok a => k a
  | Err e => Err e
  end.

Notation "x <- r ;; k" := (bind r (fun x => k))
  (at level 61, r at next level, right associativity).

(** [l[i]] on a Python sequence, for an index that is not negative. *)
Definition index_get {A : Type} (l : list A) (i : nat) : result A :=
  match nth_error l i with
  | Some a => Ok a
  | None => Err IndexError
  end.

(** [l[i] = v] on a list whose index [i] is in range. *)
Fixpoint set_nth {A : Type} (i : nat) (v : A) (l : list A) : list A :=
  match l, i with
  | [], _ => []
  | _ :: l', O => v :: l'
  | a :: l', S i' => a :: set_nth i' v l'
  end.

(** [for x in l: st = step st x], stopping at the first exception. *)
Fixpoint for_each {A S : Type} (step : S -> A -> result S) (l : list A) (st : S)
  : result S :=
  match l with
  | [] => Ok st
  | x :: l' => st' <- step st x ;; for_each step l' st'
  end.

(** ** The details sheet *)

Definition row := list pyval.

(** The active worksheet: row 1 and the rows from row 2 on. *)
Record sheet : Type := mkSheet {
  sheet_header : row;
  sheet_rows : list row
}.

Definition pyval_is_str (v : pyval) (s : string) : bool :=
  match v with
  | PStr s' => s' =? s
  | _ => false
  end.

(** [headers.index(name)]: the first position holding the string [name]. *)
Fixpoint index_of (name : string) (headers : row) : option nat :=
  match headers with
  | [] => None
  | h :: rest =>
      if pyval_is_str h name then Some O
      else option_map S (index_of name rest)
  end.

Definition claim_col_name : string := "Independent Claims".
Definition key_col_idx : nat := 0.

Definition rejected_header : row := [PStr "Key"; PStr "Claim"; PStr "Comments"].

(** One turn of the inner loop (lines 64-68): the state is the pair of
    [cleaned_claims] and [rejected_rows]. *)
Definition part_step (key : pyval) (st : list string * list row) (part : string)
  : list string * list row :=
  let '(cleaned_claims, rejected_rows) := st in
  let '(cleaned_text, comments) := clean_claim_text (PStr part) in
  if rejected comments
  then (cleaned_claims,
        rejected_rows ++ [[key; PStr cleaned_text; PStr (join ", " comments)]])
  else (cleaned_claims ++ [cleaned_text], rejected_rows).

(** The fragments the loop runs over (lines 61-63): none for a falsy cell. *)
Definition fragments (claim_cell : pyval) : list string :=
  if truthy claim_cell then split "|" (py_str claim_cell) else [].

(** One turn of the outer loop (lines 57-70): the state is the pair of
    [updated_rows] and [rejected_rows]. *)
Definition row_step (claim_col_idx : nat) (st : list row * list row) (r : row)
  : result (list row * list row) :=
  let '(updated_rows, rejected_rows) := st in
  key <- index_get r key_col_idx ;;
  claim_cell <- index_get r claim_col_idx ;;
  let '(cleaned_claims, rejected_rows') :=
    fold_left (part_step key) (fragments claim_cell) ([], rejected_rows) in
  let row_list := set_nth claim_col_idx (PStr (join " | " cleaned_claims)) r in
  Ok (updated_rows ++ [row_list], rejected_rows').

(** [process_details_sheet] (lines 44-80): the rows of the sheets
    "Updated Details" and "Commented Claims". *)
Definition process_details_sheet (ws : sheet) : result (list row * list row) :=
  let headers := sheet_header ws in
  match index_of claim_col_name headers with
  | None => Err ValueError
  | Some claim_col_idx =>
      for_each (row_step claim_col_idx) (sheet_rows ws)
        ([headers], [rejected_header])
  end.

(** The first sheet of the output, read back as an input sheet. *)
Definition reload (updated_rows : list row) : sheet :=
  match updated_rows with
  | [] => mkSheet [PNone] []
  | h :: rows => mkSheet h rows
  end.

Definition demo_sheet : sheet :=
  mkSheet [PStr "Publication Number"; PStr "Independent Claims"; PStr "Title"]
    [[PStr "US1";
      PStr "Claim 1 is valid. | (canceled) | This invention relates to a computer program.";
      PStr "T1"];
     [PStr "US2"; PNone; PInt 7];
     [PStr "US3"; PStr "a||b "; PBool true]].

(** ** The info sheet *)

(** *** What the installed libraries decide

    Two behaviours of the libraries are not fixed by the source and are
    taken as parameters of the model. *)
Record runtime : Type := mkRuntime {
  (** Whether [Series.astype(str)] leaves a missing value missing, as pandas
      does from version 3 on; earlier versions write the text of the
      missing value, [nan]. *)
  astype_str_keeps_missing : bool;
  (** [unicodedata.decimal] on the code points from 128 on: the value of a
      decimal digit, nothing for any other character.  The pattern [\d]
      and [int] follow it. *)
  unicode_decimal : N -> option N
}.

(** A text with any character, given by its code points. *)
Definition text := list N.

Definition text_of (s : string) : text := map ord (list_ascii_of_string s).

(** A cell of the column 'Claim number': missing, a text, an integer or a
    boolean. *)
Inductive claim_cell : Type :=
| ClaimMissing
| ClaimText (t : text)
| ClaimInt (z : Z)
| ClaimBool (b : bool).

(** A row of the metadata table.  Seed patents and application numbers are
    text. *)
Record meta_row : Type := mkMeta {
  m_seed : pyval;                 (* 'Seed?' *)
  m_seed_patent : string;         (* 'Seed patent' *)
  m_app : string;                 (* 'Formatted Application Number' *)
  m_ext : pyval;                  (* 'extended family members' *)
  m_claim : claim_cell            (* 'Claim number' *)
}.

(** A row of the family-published table.  The publication number is the
    value of its cell: a text, the missing value for an empty cell, a
    number.  The date is the outcome of
    [pd.to_datetime(..., errors='coerce')]: a point in time, or [None]
    (NaT) for an empty or unparseable cell. *)
Record family_row : Type := mkFamily {
  f_pub : pyval;                  (* 'Publication Number' *)
  f_family_id : pyval;            (* 'Simple Family Id' *)
  f_app : string;                 (* 'Application Number' *)
  f_date : option Z               (* 'Publication Date' *)
}.

Record info_row : Type := mkInfo {
  i_pub : string;
  i_app : string;
  i_family_id : pyval;
  i_members : string;
  i_claim : option Z
}.

(** [df_meta['Seed?'] == True], element by element: in Python [1 == True]. *)
Definition is_seed (v : pyval) : bool :=
  match v with
  | PBool b => b
  | PInt z => (z =? 1)%Z
  | _ => false
  end.

Definition is_missing (v : pyval) : bool :=
  match v with
  | PNone | PNaN => true
  | _ => false
  end.

(** [Series.astype(str)] on one element: [str] of the element; a missing
    value stays missing or becomes its text, as the installed pandas
    decides. *)
Definition astype_str (rt : runtime) (v : pyval) : pyval :=
  if astype_str_keeps_missing rt && is_missing v then PNaN
  else PStr (py_str v).

(** [Series.fillna(d)] on one element. *)
Definition fillna (d : string) (v : pyval) : pyval :=
  match v with
  | PNone | PNaN => PStr d
  | _ => v
  end.

(** The 'INPADOC Family Members' column of the base info sheet (line 105):
    [astype(str)] first, [fillna('')] second. *)
Definition base_members (rt : runtime) (ext : pyval) : pyval :=
  fillna "" (astype_str rt ext).

(** *** Claim number (line 110) *)

(** The value of a decimal digit: the ASCII digits, and beyond ASCII what
    the Unicode table says. *)
Definition decimal_value (rt : runtime) (c : N) : option N :=
  if (c <? 128)%N then
    if ((48 <=? c) && (c <=? 57))%N then Some (c - 48)%N else None
  else unicode_decimal rt c.

(** The class [\d]. *)
Definition is_decimal (rt : runtime) (c : N) : bool :=
  match decimal_value rt c with
  | Some _ => true
  | None => false
  end.

(** [astype(str)] on one element of the column: the text the pattern is
    searched in, or nothing when the value stays missing. *)
Definition claim_str (rt : runtime) (c : claim_cell) : option text :=
  match c with
  | ClaimMissing =>
      if astype_str_keeps_missing rt then None else Some (text_of "nan")
  | ClaimText t => Some t
  | ClaimInt z => Some (text_of (str_int z))
  | ClaimBool true => Some (text_of "True")
  | ClaimBool false => Some (text_of "False")
  end.

Fixpoint take_digits (rt : runtime) (t : text) : text :=
  match t with
  | [] => []
  | c :: t' => if is_decimal rt c then c :: take_digits rt t' else []
  end.

(** [str.extract(r'(\d+)')] on one element: the first, maximal run of
    digits, if there is a digit. *)
Fixpoint extract_digits (rt : runtime) (t : text) : option text :=
  match t with
  | [] => None
  | c :: t' =>
      if is_decimal rt c then Some (take_digits rt t) else extract_digits rt t'
  end.

(** [int(s)] for a string of digits, [acc] being the value read so far. *)
Fixpoint int_of_digits (rt : runtime) (acc : Z) (t : text) : Z :=
  match t with
  | [] => acc
  | c :: t' =>
      let d := match decimal_value rt c with Some d => d | None => 0%N end in
      int_of_digits rt (10 * acc + Z.of_N d) t'
  end.

Definition int64_max : Z := 9223372036854775807.

(** [astype('Int64')] on one element of the extracted column: a missing
    value stays missing, a string of digits is parsed and must fit. *)
Definition to_Int64 (rt : runtime) (o : option text) : result (option Z) :=
  match o with
  | None => Ok None
  | Some ds =>
      let z := int_of_digits rt 0 ds in
      if (z <=? int64_max)%Z then Ok (Some z) else Err OverflowError
  end.

Definition claim_number (rt : runtime) (raw : claim_cell) : result (option Z) :=
  match claim_str rt raw with
  | None => Ok None
  | Some t => to_Int64 rt (extract_digits rt t)
  end.

(** [map] with exceptions, for a column-wise conversion. *)
Fixpoint map_result {A B : Type} (f : A -> result B) (l : list A) : result (list B) :=
  match l with
  | [] => Ok []
  | x :: l' => y <- f x ;; ys <- map_result f l' ;; Ok (y :: ys)
  end.

(** *** Earliest publication per application number (lines 118-121) *)

(** The order of [sort_values] on one date: NaT comes last. *)
Definition date_leb (d1 d2 : option Z) : bool :=
  match d1, d2 with
  | Some x, Some y => (x <=? y)%Z
  | Some _, None => true
  | None, Some _ => false
  | None, None => true
  end.

(** The order on the keys ['Application Number', 'Publication Date']. *)
Definition key_leb (r1 r2 : family_row) : bool :=
  match String.compare (f_app r1) (f_app r2) with
  | Lt => true
  | Eq => date_leb (f_date r1) (f_date r2)
  | Gt => false
  end.

(** A stable sort: a row goes in front of the first row that is not
    below it, hence in front of its equals that came later in the table. *)
Fixpoint insert_row (r : family_row) (l : list family_row) : list family_row :=
  match l with
  | [] => [r]
  | x :: l' => if key_leb r x then r :: l else x :: insert_row r l'
  end.

Fixpoint sort_values (l : list family_row) : list family_row :=
  match l with
  | [] => []
  | r :: l' => insert_row r (sort_values l')
  end.

(** [drop_duplicates(subset='Application Number', keep='first')]. *)
Fixpoint drop_duplicates_from (seen : list string) (l : list family_row)
  : list family_row :=
  match l with
  | [] => []
  | r :: l' =>
      if mem (f_app r) seen then drop_duplicates_from seen l'
      else r :: drop_duplicates_from (f_app r :: seen) l'
  end.

Definition drop_duplicates (l : list family_row) : list family_row :=
  drop_duplicates_from [] l.

(** A Python [dict] from application numbers to cell values, in insertion
    order. *)
Definition dict := list (string * pyval).

Fixpoint dict_set (d : dict) (k : string) (v : pyval) : dict :=
  match d with
  | [] => [(k, v)]
  | (k', v') :: d' =>
      if k' =? k then (k, v) :: d' else (k', v') :: dict_set d' k v
  end.

(** [d.get(k)]. *)
Fixpoint dict_get (d : dict) (k : string) : option pyval :=
  match d with
  | [] => None
  | (k', v') :: d' => if k' =? k then Some v' else dict_get d' k
  end.

(** [dict(zip(keys, values))]. *)
Definition dict_of (kvs : list (string * pyval)) : dict :=
  fold_left (fun d kv => dict_set d (fst kv) (snd kv)) kvs [].

Definition earliest_pub_map (fam : list family_row) : dict :=
  let df_sorted := sort_values fam in
  let df_earliest_pub := drop_duplicates df_sorted in
  dict_of (map (fun r => (f_app r, f_pub r)) df_earliest_pub).

(** *** Family members (lines 123-135) *)

(** [set(l)], as the list of its elements without repetition. *)
Fixpoint to_set (l : list string) : list string :=
  match l with
  | [] => []
  | x :: l' => if mem x l' then to_set l' else x :: to_set l'
  end.

Fixpoint insert_str (x : string) (l : list string) : list string :=
  match l with
  | [] => [x]
  | y :: l' => if String.leb x y then x :: l else y :: insert_str x l'
  end.

(** [sorted(s)] on strings: by code points. *)
Fixpoint sorted (l : list string) : list string :=
  match l with
  | [] => []
  | x :: l' => insert_str x (sorted l')
  end.

(** The set built by [concat_published] once the earliest publication is
    known to be a text (lines 130-133). *)
Definition members_set (existing : string) (earliest_pub : string) : list string :=
  let existing_set := if existing =? "" then [] else to_set (split "|" existing) in
  if mem earliest_pub existing_set then existing_set
  else earliest_pub :: existing_set.

(** [concat_published] (lines 123-135), given the row's members and
    application number.  A value that is not a text and is not falsy is
    added to the set of strings, which [sorted] cannot order and [join]
    cannot write: both raise [TypeError]. *)
Definition concat_published (earliest : dict) (existing : string) (app : string)
  : result string :=
  match dict_get earliest app with
  | None => Ok existing
  | Some earliest_pub =>
      if negb (truthy earliest_pub) then Ok existing
      else
        match earliest_pub with
        | PStr p => Ok (join "|" (sorted (members_set existing p)))
        | _ => Err TypeError
        end
  end.

(** *** The build (lines 89-150) *)

(** [df[name]] on a table read from a workbook: the column of that name
    must be in the header row. *)
Definition column (df : sheet) (name : string) : result nat :=
  match index_of name (sheet_header df) with
  | Some i => Ok i
  | None => Err KeyError
  end.

(** The rows of the base info sheet (lines 102-110), before the merge. *)
Record base_row : Type := mkBase {
  b_pub : string;
  b_app : string;
  b_members : pyval;
  b_claim : option Z
}.

Definition base_of (rt : runtime) (m : meta_row) : result base_row :=
  c <- claim_number rt (m_claim m) ;;
  Ok (mkBase (m_seed_patent m) (m_app m) (base_members rt (m_ext m)) c).

(** The left merge on 'Publication Number' (line 114): one row per match
    in the family table, or one row without family id.  The column of the
    family table is taken as pandas reads a column that holds a text or is
    empty, cell by cell. *)
Definition merge_left (fam : list family_row) (b : base_row)
  : list (base_row * pyval) :=
  match filter (fun f => pyval_is_str (f_pub f) (b_pub b)) fam with
  | [] => [(b, PNaN)]
  | matches => map (fun f => (b, f_family_id f)) matches
  end.

(** The last step (line 137) on one merged row; the members column holds
    strings since [fillna('')], on which [py_str] changes nothing. *)
Definition finish (earliest : dict) (bf : base_row * pyval) : result info_row :=
  let '(b, fid) := bf in
  members <- concat_published earliest (py_str (b_members b)) (b_app b) ;;
  Ok (mkInfo (b_pub b) (b_app b) fid members (b_claim b)).

(** [process_info_sheet] (lines 89-150) on the metadata table, the
    family-published table and the cleaned details table, from which the
    unused [claim_map] of line 99 is read. *)
Definition process_info_sheet (rt : runtime) (meta : list meta_row)
           (fam : list family_row) (df_cleaned : sheet)
  : result (list info_row * nat) :=
  let df_seed := filter (fun m => is_seed (m_seed m)) meta in
  claim_map_keys <- column df_cleaned "Publication Number" ;;
  claim_map_values <- column df_cleaned claim_col_name ;;
  base <- map_result (base_of rt) df_seed ;;
  let merged := flat_map (merge_left fam) base in
  let earliest := earliest_pub_map fam in
  rows <- map_result (finish earliest) merged ;;
  Ok (rows, List.length df_seed).

(** A part of the Unicode table, for the examples: the Arabic-Indic
    digits. *)
Definition arabic_indic (c : N) : option N :=
  if ((1632 <=? c) && (c <=? 1641))%N then Some (c - 1632)%N else None.

Definition pandas_2 : runtime := mkRuntime false arabic_indic.
Definition pandas_3 : runtime := mkRuntime true arabic_indic.

Definition demo_meta : list meta_row :=
  [mkMeta (PBool true) "US123" "APP1" (PStr "US999") (ClaimText (text_of "Claim 3"));
   mkMeta (PBool false) "US777" "APP2" PNaN ClaimMissing].

Definition demo_family : list family_row :=
  [mkFamily (PStr "US123") (PStr "Simple1") "APP1" (Some 20200101%Z);
   mkFamily (PStr "US555") (PStr "Simple1") "APP1" (Some 20190601%Z)].

(** The rows of a cleaned details sheet. *)
Definition demo_cleaned : sheet :=
  mkSheet [PStr "Publication Number"; PStr "Independent Claims"; PStr "Title"]
    [[PStr "US123"; PStr "Claim 1 is valid."; PStr "T1"]].

(** ** Notions used to state the properties *)

(** The normalised text of a fragment: trimmed, then without non-ASCII
    characters. *)
Definition normalized (s : string) : string := remove_non_ascii (strip s).

(** One of the conditions of the tag table holds for the text. *)
Definition matches_condition (text : string) : bool :=
  contains "(canceled)" (lower text)
  || existsb (fun x => contains x (lower text)) crm_needles
  || contains "delete" (lower text)
  || contains "paragraph" (lower text)
  || contains "article" (lower text)
  || contains "clause" (lower text)
  || re_search_claim text.

(** What one fragment adds to [cleaned_claims]: its text, or nothing. *)
Definition kept_entry (part : string) : list string :=
  let '(text, comments) := clean_claim_text (PStr part) in
  if rejected comments then [] else [text].

(** What one fragment adds to [rejected_rows]: one record, or nothing. *)
Definition rejected_entry (key : pyval) (part : string) : list row :=
  let '(text, comments) := clean_claim_text (PStr part) in
  if rejected comments then [[key; PStr text; PStr (join ", " comments)]] else [].

Definition kept_of (parts : list string) : list string :=
  flat_map kept_entry parts.

Definition rejected_of (key : pyval) (parts : list string) : list row :=
  flat_map (rejected_entry key) parts.

(** The outcome of one data row: the rebuilt row and its rejected
    records. *)
Definition row_result (claim_col_idx : nat) (r : row) : result (row * list row) :=
  key <- index_get r key_col_idx ;;
  claim_cell <- index_get r claim_col_idx ;;
  Ok (set_nth claim_col_idx
        (PStr (join " | " (kept_of (fragments claim_cell)))) r,
      rejected_of key (fragments claim_cell)).

(** How a data row [r] with key [key] and claim cell [cell] is split over
    the two outputs: [x] is the rebuilt row with the rejected records of
    the row. *)
Definition row_partitioned (idx : nat) (r : row) (x : row * list row) : Prop :=
  exists key cell,
    nth_error r key_col_idx = Some key
    /\ nth_error r idx = Some cell
    /\ nth_error (fst x) idx
       = Some (PStr (join " | " (flat_map kept_entry (fragments cell))))
    /\ snd x = flat_map (rejected_entry key) (fragments cell)
    /\ (List.length (flat_map kept_entry (fragments cell)) + List.length (snd x)
        = List.length (fragments cell))%nat
    /\ forall part, In part (fragments cell) ->
         (kept_entry part = [fst (clean_claim_text (PStr part))]
          /\ rejected_entry key part = [])
         \/ (kept_entry part = []
             /\ rejected_entry key part
                = [[key; PStr (fst (clean_claim_text (PStr part)));
                    PStr (join ", " (snd (clean_claim_text (PStr part))))]]).

Definition reject_condition (text : string) : bool :=
  contains "(canceled)" (lower text)
  || existsb (fun x => contains x (lower text)) crm_needles
  || contains "delete" (lower text)
  || contains "paragraph" (lower text)
  || contains "article" (lower text)
  || contains "clause" (lower text).

Definition pipe_free (s : string) : bool :=
  str_forall (fun c => negb (Ascii.eqb c "|")) s.

Definition ascii_only (s : string) : bool :=
  str_forall (fun x => (ord x <? 128)%N) s.

(** What holds of every text the first run keeps. *)
Definition clean_kept (t : string) : Prop :=
  ascii_only t = true /\ pipe_free t = true /\ reject_condition t = false.

(** A kept text between white space. *)
Definition padded_kept (p : string) : Prop :=
  exists a t b,
    p = (a ++ t ++ b)%string /\ str_forall is_space a = true
    /\ str_forall is_space b = true /\ clean_kept t.

Definition no_digit (s : string) : bool :=
  str_forall (fun c => negb (is_digit c)) s.

Definition no_decimal (rt : runtime) (t : text) : bool :=
  forallb (fun c => negb (is_decimal rt c)) t.

(** [o] is the first maximal run of decimal digits of [t], if [t] has a
    digit. *)
Inductive FirstRun (rt : runtime) (t : text) : option text -> Prop :=
| FirstRun_none : no_decimal rt t = true -> FirstRun rt t None
| FirstRun_some (pre ds post : text) :
    t = pre ++ ds ++ post ->
    no_decimal rt pre = true ->
    ds <> [] ->
    forallb (is_decimal rt) ds = true ->
    match post with c :: _ => is_decimal rt c = false | [] => True end ->
    FirstRun rt t (Some ds).

Definition rows_sorted (l : list family_row) : Prop :=
  StronglySorted (fun a b => key_leb a b = true) l.

(** The first row of a table for an application number. *)
Definition first_for (a : string) (l : list family_row) : option family_row :=
  find (fun r => f_app r =? a) l.

(** The row that ends up first for [a] after [sort_values], read off the
    table itself: a row replaces the best of the rows after it when its
    date is not later. *)
Fixpoint earliest_row (a : string) (l : list family_row) : option family_row :=
  match l with
  | [] => None
  | x :: l' =>
      if f_app x =? a then
        match earliest_row a l' with
        | None => Some x
        | Some y => if date_leb (f_date x) (f_date y) then Some x else Some y
        end
      else earliest_row a l'
  end.

(** [e] is a row of the family table for the application number [a] whose
    date is parseable and not later than any parseable date for [a]. *)
Definition is_earliest (fam : list family_row) (a : string) (e : family_row) : Prop :=
  In e fam /\ f_app e = a
  /\ exists d, f_date e = Some d
               /\ forall e' d', In e' fam -> f_app e' = a ->
                                f_date e' = Some d' -> (d <= d')%Z.

(** ** Further notions: the classifier *)

(** [remove_non_ascii] on any value (line 11): a value that is not a string
    is handed back as it is. *)
Definition remove_non_ascii_val (v : pyval) : pyval :=
  match v with
  | PStr s => PStr (remove_non_ascii s)
  | _ => v
  end.

(** The tags in the order in which the classifier tests them. *)
Definition all_tags : list string := reject_tags ++ ["probable dependent"].

(** The substrings that decide rejection, the needle [computer] standing
    for the four needles of the tag [CRM]. *)
Definition reject_needles : list string :=
  ["(canceled)"; "computer"; "delete"; "paragraph"; "article"; "clause"].

Definition no_space (s : string) : bool :=
  str_forall (fun c => negb (is_space c)) s.

(** A record of the rejected sheet made from the data row [r]: the first
    cell of the row, then the normalised text and the joined tags of a
    fragment that carries a rejecting tag. *)
Definition record_of_row (r : row) (rec : row) : Prop :=
  exists key part,
    nth_error r key_col_idx = Some key
    /\ rejected (snd (clean_claim_text (PStr part))) = true
    /\ rec = [key; PStr (fst (clean_claim_text (PStr part)));
              PStr (join ", " (snd (clean_claim_text (PStr part))))].

(** ** Further notions: the info sheet *)

(** Ascending order of [sorted]. *)
Definition ascending (l : list string) : Prop :=
  Sorted (fun a b => String.leb a b = true) l.

(** The characters of the string form of an integer. *)
Definition int_char (c : ascii) : bool := is_digit c || Ascii.eqb c "-".

(** * Properties *)

(** ** The model on examples *)

Example ex_canceled :
  clean_claim_text (PStr " 3. (Canceled) ")
  = ("3. (Canceled)", ["cancel"; "probable dependent"]).
Proof. reflexivity. Qed.

Example ex_dependent :
  clean_claim_text (PStr "The method of claims  12, wherein")
  = ("The method of claims  12, wherein", ["probable dependent"]).
Proof. reflexivity. Qed.

Example ex_pattern :
  re_search_claim "as in Claim 1" = true
  /\ re_search_claim "of CLAIMS 2 or 3" = true
  /\ re_search_claim "claim1" = false
  /\ re_search_claim "reclaim 1" = false
  /\ re_search_claim "Claim. 1" = false
  /\ re_search_claim "claims" = false.
Proof. repeat split; reflexivity. Qed.

Example ex_crm :
  clean_claim_text (PStr "This invention relates to a computer program.")
  = ("This invention relates to a computer program.", ["CRM"; "probable dependent"]).
Proof. reflexivity. Qed.

Example ex_str_int : str_int 1205 = "1205" /\ str_int (-40) = "-40".
Proof. split; reflexivity. Qed.

Example ex_details :
  process_details_sheet demo_sheet
  = Ok ([[PStr "Publication Number"; PStr "Independent Claims"; PStr "Title"];
         [PStr "US1"; PStr "Claim 1 is valid."; PStr "T1"];
         [PStr "US2"; PStr ""; PInt 7];
         [PStr "US3"; PStr "a |  | b"; PBool true]],
        [rejected_header;
         [PStr "US1"; PStr "(canceled)"; PStr "cancel, probable dependent"];
         [PStr "US1"; PStr "This invention relates to a computer program.";
          PStr "CRM, probable dependent"]]).
Proof. reflexivity. Qed.

Example ex_info :
  process_info_sheet pandas_3 demo_meta demo_family demo_cleaned
  = Ok ([mkInfo "US123" "APP1" (PStr "Simple1") "US555|US999" (Some 3%Z)], 1%nat).
Proof. vm_compute. reflexivity. Qed.

(** ** Strings *)

Lemma lstrip_all_space (s : string) :
  str_forall is_space s = true -> lstrip s = "".
Proof.
  induction s as [|c s IH]; simpl; [reflexivity|].
  intros H. apply andb_prop in H as [Hc Hs]. rewrite Hc. now apply IH.
Qed.

Lemma strip_all_space (s : string) :
  str_forall is_space s = true -> strip s = "".
Proof.
  intros H. unfold strip. now rewrite (lstrip_all_space s H).
Qed.

Lemma eqb_empty_false (s : string) : s <> "" -> (s =? "") = false.
Proof. intros H. now apply String.eqb_neq. Qed.

(** ** The classifier *)

Lemma tags_of_fallback (text : string) :
  matches_condition text = false ->
  (String.length text < 200)%nat ->
  tags_of text = ["probable dependent"].
Proof.
  unfold matches_condition. intros H Hlen.
  repeat (apply orb_false_elim in H as [H ?]).
  unfold tags_of.
  repeat match goal with
         | E : ?b = false |- context [append_if ?b _ _] => rewrite E
         end.
  simpl. apply Nat.ltb_lt in Hlen. now rewrite Hlen.
Qed.

(** C6: the empty string, [None] and every value that is not a string are
    classified as the empty text with no tag. *)
Theorem clean_claim_text_empty_or_not_str (v : pyval) :
  v = PStr "" \/ (forall s, v <> PStr s) ->
  clean_claim_text v = ("", []).
Proof.
  intros [-> | H]; [reflexivity|].
  destruct v; try reflexivity. now destruct (H s).
Qed.

Lemma clean_claim_text_empty_or_not_str_witness :
  clean_claim_text (PStr "") = ("", []) /\ clean_claim_text PNone = ("", []).
Proof.
  split.
  - apply (clean_claim_text_empty_or_not_str (PStr "")). left. reflexivity.
  - apply (clean_claim_text_empty_or_not_str PNone). right. intros s H. discriminate H.
Defined.

(** C4, as stated, fails on the empty fragment: its normalised text is
    short and meets no condition, and yet it gets no tag at all. *)
Lemma short_fragment_tag_counterexample :
  ~ (forall s : string,
        (String.length (normalized s) < 200)%nat ->
        matches_condition (normalized s) = false ->
        In "probable dependent" (snd (clean_claim_text (PStr s)))
        /\ rejected (snd (clean_claim_text (PStr s))) = false).
Proof.
  intros H. destruct (H "") as [Hin _].
  - simpl. lia.
  - reflexivity.
  - simpl in Hin. exact Hin.
Qed.

(** C4, amended: a fragment that is not empty, whose normalised text is
    shorter than 200 and meets none of the conditions, gets exactly the tag
    [probable dependent] and is not rejected; the empty fragment gets no
    tag and is not rejected either. *)
Theorem short_fragment_probable_dependent (s : string) :
  s <> "" ->
  (String.length (normalized s) < 200)%nat ->
  matches_condition (normalized s) = false ->
  clean_claim_text (PStr s) = (normalized s, ["probable dependent"])
  /\ In "probable dependent" (snd (clean_claim_text (PStr s)))
  /\ rejected (snd (clean_claim_text (PStr s))) = false
  /\ rejected (snd (clean_claim_text (PStr ""))) = false.
Proof.
  intros Hne Hlen Hcond.
  assert (E : clean_claim_text (PStr s) = (normalized s, ["probable dependent"])).
  { unfold clean_claim_text. rewrite (eqb_empty_false s Hne).
    fold (normalized s). now rewrite (tags_of_fallback _ Hcond Hlen). }
  rewrite E. simpl. repeat split; auto.
Qed.

Lemma short_fragment_probable_dependent_witness :
  clean_claim_text (PStr " A widget comprising a lever. ")
  = (normalized " A widget comprising a lever. ", ["probable dependent"])
  /\ In "probable dependent"
        (snd (clean_claim_text (PStr " A widget comprising a lever. ")))
  /\ rejected (snd (clean_claim_text (PStr " A widget comprising a lever. "))) = false
  /\ rejected (snd (clean_claim_text (PStr ""))) = false.
Proof.
  apply short_fragment_probable_dependent.
  - discriminate.
  - vm_compute. lia.
  - vm_compute. reflexivity.
Defined.

(** C10, as stated, fails on a fragment made of white space: it is not
    classified with an empty tag list. *)
Lemma blank_fragment_counterexample :
  ~ (forall s : string,
        str_forall is_space s = true -> clean_claim_text (PStr s) = ("", [])).
Proof.
  intros H. specialize (H " " eq_refl). discriminate H.
Qed.

(** C10, amended: the empty fragment is classified as the empty text with
    no tag, a fragment of white space as the empty text with the tag
    [probable dependent]; neither is rejected, and the inner loop keeps
    each as an empty entry of the rebuilt cell. *)
Theorem blank_fragment_kept (s : string) :
  str_forall is_space s = true ->
  clean_claim_text (PStr s)
  = ("", if s =? "" then [] else ["probable dependent"])
  /\ rejected (snd (clean_claim_text (PStr s))) = false
  /\ forall key cleaned_claims rejected_rows,
      part_step key (cleaned_claims, rejected_rows) s
      = (cleaned_claims ++ [""], rejected_rows).
Proof.
  intros Hs.
  assert (E : clean_claim_text (PStr s)
              = ("", if s =? "" then [] else ["probable dependent"])).
  { unfold clean_claim_text. destruct (s =? "") eqn:Es; [reflexivity|].
    rewrite (strip_all_space s Hs). reflexivity. }
  split; [exact E|]. split.
  - rewrite E. now destruct (s =? "").
  - intros key cl rj. unfold part_step. rewrite E. now destruct (s =? "").
Qed.

Lemma blank_fragment_kept_witness :
  part_step (PStr "US1") (["a"], [rejected_header]) "  "
  = (["a"; ""], [rejected_header]).
Proof.
  apply (blank_fragment_kept "  "). reflexivity.
Defined.

(** A cell with an empty fragment between two pipes is rebuilt with an
    empty segment. *)
Example ex_empty_segment :
  fold_left (part_step (PStr "US1")) (fragments (PStr "a||b")) ([], [])
  = (["a"; ""; "b"], [])
  /\ join " | " ["a"; ""; "b"] = "a |  | b".
Proof. split; reflexivity. Qed.

(** ** The details sheet: missing column *)

Lemma index_of_none (name : string) (headers : row) :
  ~ In (PStr name) headers -> index_of name headers = None.
Proof.
  induction headers as [|h rest IH]; simpl; [reflexivity|].
  intros H. destruct (pyval_is_str h name) eqn:E.
  - exfalso. apply H. left. destruct h; try discriminate E.
    simpl in E. apply String.eqb_eq in E. now subst.
  - rewrite IH; [reflexivity|]. intros Hin. apply H. now right.
Qed.

(** C3: when the header row does not hold 'Independent Claims', the
    transformation raises the error of [list.index] and returns no sheet,
    whatever the data rows are. *)
Theorem process_details_sheet_missing_column (ws : sheet) :
  ~ In (PStr claim_col_name) (sheet_header ws) ->
  process_details_sheet ws = Err ValueError.
Proof.
  intros H. unfold process_details_sheet.
  now rewrite (index_of_none _ _ H).
Qed.

Lemma process_details_sheet_missing_column_witness :
  process_details_sheet
    (mkSheet [PStr "Key"; PStr "Claims"; PNone] [[PStr "US1"; PStr "a|b"; PNone]; []])
  = Err ValueError.
Proof.
  apply process_details_sheet_missing_column. simpl.
  intros [H | [H | [H | []]]]; discriminate H.
Defined.

(** ** The details sheet: what the two loops compute *)

(** A fragment adds one entry to exactly one of the two lists. *)
Lemma entry_exclusive (key : pyval) (part : string) :
  (kept_entry part = [fst (clean_claim_text (PStr part))]
   /\ rejected_entry key part = [])
  \/ (kept_entry part = []
      /\ rejected_entry key part
         = [[key; PStr (fst (clean_claim_text (PStr part)));
             PStr (join ", " (snd (clean_claim_text (PStr part))))]]).
Proof.
  unfold kept_entry, rejected_entry.
  destruct (clean_claim_text (PStr part)) as [text comments]. simpl.
  destruct (rejected comments); [right | left]; split; reflexivity.
Qed.

Lemma part_step_entries (key : pyval) (part : string) cleaned rej :
  part_step key (cleaned, rej) part
  = (cleaned ++ kept_entry part, rej ++ rejected_entry key part).
Proof.
  unfold part_step, kept_entry, rejected_entry.
  destruct (clean_claim_text (PStr part)) as [text comments].
  destruct (rejected comments); now rewrite app_nil_r.
Qed.

Lemma fold_part_step (key : pyval) (parts : list string) :
  forall cleaned rej,
    fold_left (part_step key) parts (cleaned, rej)
    = (cleaned ++ kept_of parts, rej ++ rejected_of key parts).
Proof.
  induction parts as [|p parts IH]; intros cleaned rej; cbn [fold_left].
  - unfold kept_of, rejected_of. simpl. now rewrite !app_nil_r.
  - rewrite part_step_entries, IH. unfold kept_of, rejected_of.
    cbn [flat_map]. now rewrite <- !app_assoc.
Qed.

Lemma entries_length (key : pyval) (parts : list string) :
  (List.length (kept_of parts) + List.length (rejected_of key parts)
   = List.length parts)%nat.
Proof.
  induction parts as [|p parts IH]; simpl; [reflexivity|].
  unfold kept_of, rejected_of in *. simpl. rewrite !length_app.
  destruct (entry_exclusive key p) as [[-> ->] | [-> ->]]; simpl; lia.
Qed.

Lemma row_step_result (idx : nat) (r : row) updated rej :
  row_step idx (updated, rej) r
  = x <- row_result idx r ;; Ok (updated ++ [fst x], rej ++ snd x).
Proof.
  unfold row_step, row_result.
  destruct (index_get r key_col_idx) as [key|e]; simpl; [|reflexivity].
  destruct (index_get r idx) as [cell|e]; simpl; [|reflexivity].
  now rewrite fold_part_step.
Qed.

Lemma for_each_row_step (idx : nat) (rows : list row) :
  forall updated rej,
    for_each (row_step idx) rows (updated, rej)
    = xs <- map_result (row_result idx) rows ;;
      Ok (updated ++ map fst xs, rej ++ flat_map snd xs).
Proof.
  induction rows as [|r rows IH]; intros updated rej; cbn [for_each map_result].
  - simpl. now rewrite !app_nil_r.
  - rewrite row_step_result.
    destruct (row_result idx r) as [x|e]; cbn [bind]; [|reflexivity].
    rewrite IH.
    destruct (map_result (row_result idx) rows) as [xs|e]; cbn [bind]; [|reflexivity].
    cbn [map flat_map]. now rewrite <- !app_assoc.
Qed.

Lemma map_result_Ok {A B : Type} (f : A -> result B) (l : list A) (ys : list B) :
  map_result f l = Ok ys -> Forall2 (fun x y => f x = Ok y) l ys.
Proof.
  revert ys. induction l as [|x l IH]; simpl; intros ys H.
  - injection H as <-. constructor.
  - destruct (f x) as [y|e] eqn:Ex; simpl in H; [|discriminate H].
    destruct (map_result f l) as [ys'|e]; simpl in H; [|discriminate H].
    injection H as <-. constructor; auto.
Qed.

Lemma map_result_total {A B : Type} (f : A -> result B) (g : A -> B) (l : list A) :
  Forall (fun x => f x = Ok (g x)) l -> map_result f l = Ok (map g l).
Proof.
  induction 1 as [|x l Hx _ IH]; simpl; [reflexivity|].
  now rewrite Hx, IH.
Qed.

Lemma process_details_sheet_Ok (ws : sheet) updated rej :
  process_details_sheet ws = Ok (updated, rej) ->
  exists idx xs,
    index_of claim_col_name (sheet_header ws) = Some idx
    /\ Forall2 (fun r x => row_result idx r = Ok x) (sheet_rows ws) xs
    /\ updated = sheet_header ws :: map fst xs
    /\ rej = rejected_header :: flat_map snd xs.
Proof.
  unfold process_details_sheet.
  destruct (index_of claim_col_name (sheet_header ws)) as [idx|]; [|discriminate].
  rewrite for_each_row_step.
  destruct (map_result (row_result idx) (sheet_rows ws)) as [xs|e] eqn:E;
    simpl; [|discriminate].
  intros H. injection H as <- <-. exists idx, xs.
  repeat split; auto using map_result_Ok.
Qed.

Lemma nth_error_set_nth_eq {A : Type} (i : nat) (v : A) (l : list A) :
  (i < List.length l)%nat -> nth_error (set_nth i v l) i = Some v.
Proof.
  revert i. induction l as [|a l IH]; intros [|i] H; simpl in *; try lia; auto.
  apply IH. lia.
Qed.

Lemma nth_error_set_nth_neq {A : Type} (i j : nat) (v : A) (l : list A) :
  i <> j -> nth_error (set_nth i v l) j = nth_error l j.
Proof.
  revert i j. induction l as [|a l IH]; intros [|i] [|j] H; simpl; auto;
    congruence.
Qed.

Lemma length_set_nth {A : Type} (i : nat) (v : A) (l : list A) :
  List.length (set_nth i v l) = List.length l.
Proof.
  revert i. induction l as [|a l IH]; intros [|i]; simpl; auto.
Qed.

Lemma index_get_Ok {A : Type} (l : list A) (i : nat) (a : A) :
  index_get l i = Ok a -> nth_error l i = Some a.
Proof.
  unfold index_get. destruct (nth_error l i); congruence.
Qed.

Lemma index_get_in_range {A : Type} (l : list A) (i : nat) :
  (i < List.length l)%nat -> exists a, index_get l i = Ok a.
Proof.
  intros H. unfold index_get. destruct (nth_error l i) eqn:E; eauto.
  apply nth_error_None in E. lia.
Qed.

Lemma index_get_nth {A : Type} (l : list A) (i : nat) (d : A) :
  (i < List.length l)%nat -> index_get l i = Ok (nth i l d).
Proof.
  intros H. unfold index_get. now rewrite (nth_error_nth' l d H).
Qed.

Lemma row_result_partitioned (idx : nat) (r : row) (x : row * list row) :
  row_result idx r = Ok x -> row_partitioned idx r x.
Proof.
  unfold row_result. intros H.
  destruct (index_get r key_col_idx) as [key|e] eqn:Ek; simpl in H; [|discriminate H].
  destruct (index_get r idx) as [cell|e] eqn:Ec; simpl in H; [|discriminate H].
  injection H as <-. exists key, cell. simpl.
  apply index_get_Ok in Ek. apply index_get_Ok in Ec.
  repeat split; auto.
  - apply nth_error_set_nth_eq. apply nth_error_Some. congruence.
  - apply (entries_length key).
  - intros part _. apply entry_exclusive.
Qed.

(** C8: in a run that succeeds, the fragments of every data row are split
    over the two outputs: the rebuilt claim cell is the join of what the
    fragments add to the kept list, in fragment order, the rejected sheet is
    its header followed by what the fragments add to it, row after row, and
    each fragment adds its normalised text to the first or one record to
    the second, never to both and never to none. *)
Theorem fragments_kept_or_rejected (ws : sheet) (updated rej : list row) :
  process_details_sheet ws = Ok (updated, rej) ->
  exists idx xs,
    index_of claim_col_name (sheet_header ws) = Some idx
    /\ updated = sheet_header ws :: map fst xs
    /\ rej = rejected_header :: flat_map snd xs
    /\ Forall2 (row_partitioned idx) (sheet_rows ws) xs.
Proof.
  intros H. apply process_details_sheet_Ok in H as (idx & xs & Hi & Hrows & Hu & Hr).
  exists idx, xs. repeat split; auto.
  clear Hu Hr. induction Hrows; constructor; auto using row_result_partitioned.
Qed.

Lemma fragments_kept_or_rejected_witness :
  exists idx xs,
    index_of claim_col_name (sheet_header demo_sheet) = Some idx
    /\ [[PStr "Publication Number"; PStr "Independent Claims"; PStr "Title"];
        [PStr "US1"; PStr "Claim 1 is valid."; PStr "T1"];
        [PStr "US2"; PStr ""; PInt 7];
        [PStr "US3"; PStr "a |  | b"; PBool true]]
       = sheet_header demo_sheet :: map fst xs
    /\ [rejected_header;
        [PStr "US1"; PStr "(canceled)"; PStr "cancel, probable dependent"];
        [PStr "US1"; PStr "This invention relates to a computer program.";
         PStr "CRM, probable dependent"]]
       = rejected_header :: flat_map snd xs
    /\ Forall2 (row_partitioned idx) (sheet_rows demo_sheet) xs.
Proof.
  apply (fragments_kept_or_rejected demo_sheet). reflexivity.
Defined.

(** C9: on a sheet that has the claim column in every row, the run
    succeeds; the first output sheet is the header row followed by one row
    per data row, in the same order, and each of them has the length of its
    data row and the same cell in every column but the claim column. *)
Theorem other_columns_unchanged (ws : sheet) (idx : nat) :
  index_of claim_col_name (sheet_header ws) = Some idx ->
  Forall (fun r => (idx < List.length r)%nat) (sheet_rows ws) ->
  exists updated_rows rej,
    process_details_sheet ws = Ok (sheet_header ws :: updated_rows, rej)
    /\ Forall2 (fun r r' =>
                  List.length r' = List.length r
                  /\ forall j, j <> idx -> nth_error r' j = nth_error r j)
               (sheet_rows ws) updated_rows.
Proof.
  intros Hi Hrows. unfold process_details_sheet. rewrite Hi.
  rewrite for_each_row_step.
  set (g := fun r : row =>
              (set_nth idx
                 (PStr (join " | " (kept_of (fragments (nth idx r PNone))))) r,
               rejected_of (nth key_col_idx r PNone) (fragments (nth idx r PNone)))).
  rewrite (map_result_total (row_result idx) g).
  - simpl. exists (map fst (map g (sheet_rows ws))). eexists. split; [reflexivity|].
    clear Hrows Hi. induction (sheet_rows ws) as [|r rows IH]; simpl; constructor; auto.
    split.
    + apply length_set_nth.
    + intros j Hj. now apply nth_error_set_nth_neq.
  - eapply Forall_impl; [|exact Hrows]. intros r Hr. simpl in Hr.
    unfold row_result, g.
    rewrite (index_get_nth r key_col_idx PNone) by (unfold key_col_idx; lia).
    simpl. now rewrite (index_get_nth r idx PNone) by exact Hr.
Qed.

Lemma other_columns_unchanged_witness :
  exists updated_rows rej,
    process_details_sheet demo_sheet
    = Ok (sheet_header demo_sheet :: updated_rows, rej)
    /\ Forall2 (fun r r' =>
                  List.length r' = List.length r
                  /\ forall j, j <> 1%nat -> nth_error r' j = nth_error r j)
               (sheet_rows demo_sheet) updated_rows.
Proof.
  apply (other_columns_unchanged demo_sheet 1).
  - reflexivity.
  - repeat constructor.
Defined.

(** ** More on strings *)

Lemma append_nil_r (s : string) : (s ++ "")%string = s.
Proof. induction s; simpl; congruence. Qed.

Lemma append_assoc (a b c : string) :
  ((a ++ b) ++ c)%string = (a ++ (b ++ c))%string.
Proof. induction a; simpl; congruence. Qed.

Lemma str_forall_app (p : ascii -> bool) (a b : string) :
  str_forall p (a ++ b) = str_forall p a && str_forall p b.
Proof.
  induction a as [|c a IH]; simpl; [reflexivity|].
  now rewrite IH, andb_assoc.
Qed.

Lemma str_forall_filter (p q : ascii -> bool) (s : string) :
  str_forall p s = true -> str_forall p (str_filter q s) = true.
Proof.
  induction s as [|c s IH]; simpl; [reflexivity|].
  intros H. apply andb_prop in H as [Hc Hs].
  destruct (q c); simpl; [rewrite Hc|]; auto.
Qed.

Lemma str_filter_id (p : ascii -> bool) (s : string) :
  str_forall p s = true -> str_filter p s = s.
Proof.
  induction s as [|c s IH]; simpl; [reflexivity|].
  intros H. apply andb_prop in H as [Hc Hs]. rewrite Hc. f_equal. auto.
Qed.

Lemma str_forall_filter_self (p : ascii -> bool) (s : string) :
  str_forall p (str_filter p s) = true.
Proof.
  induction s as [|c s IH]; simpl; [reflexivity|].
  destruct (p c) eqn:E; simpl; [rewrite E|]; auto.
Qed.

(** What [lstrip] removes is in front, what [rstrip] removes is behind. *)
Lemma lstrip_suffix (s : string) : exists a, s = (a ++ lstrip s)%string.
Proof.
  induction s as [|c s [a IH]]; simpl.
  - now exists "".
  - destruct (is_space c).
    + exists (String c a). simpl. congruence.
    + now exists "".
Qed.

Lemma rstrip_prefix (s : string) : exists b, s = (rstrip s ++ b)%string.
Proof.
  induction s as [|c s [b IH]]; simpl.
  - now exists "".
  - destruct (rstrip s) as [|c' r] eqn:E.
    + destruct (is_space c).
      * now exists (String c s).
      * exists s. reflexivity.
    + exists b. simpl in *. congruence.
Qed.

Lemma strip_inside (s : string) : exists a b, s = (a ++ strip s ++ b)%string.
Proof.
  destruct (lstrip_suffix s) as [a Ha].
  destruct (rstrip_prefix (lstrip s)) as [b Hb].
  exists a, b. unfold strip. congruence.
Qed.

Lemma str_forall_strip (p : ascii -> bool) (s : string) :
  str_forall p s = true -> str_forall p (strip s) = true.
Proof.
  intros H. destruct (strip_inside s) as (a & b & E).
  rewrite E, !str_forall_app in H.
  apply andb_prop in H as [_ H]. now apply andb_prop in H as [H _].
Qed.

Lemma rstrip_all_space (s : string) :
  str_forall is_space s = true -> rstrip s = "".
Proof.
  induction s as [|c s IH]; simpl; [reflexivity|].
  intros H. apply andb_prop in H as [Hc Hs]. now rewrite (IH Hs), Hc.
Qed.

Lemma lstrip_app_space (a s : string) :
  str_forall is_space a = true -> lstrip (a ++ s) = lstrip s.
Proof.
  induction a as [|c a IH]; simpl; [reflexivity|].
  intros H. apply andb_prop in H as [Hc Ha]. rewrite Hc. auto.
Qed.

Lemma rstrip_app_space (s b : string) :
  str_forall is_space b = true -> rstrip (s ++ b) = rstrip s.
Proof.
  intros Hb. induction s as [|c s IH]; simpl.
  - now apply rstrip_all_space.
  - now rewrite IH.
Qed.

Lemma rstrip_lstrip_comm (s : string) : rstrip (lstrip s) = lstrip (rstrip s).
Proof.
  induction s as [|c s IH]; simpl; [reflexivity|].
  destruct (is_space c) eqn:Ec.
  - destruct (rstrip s) as [|c' r] eqn:Er.
    + now rewrite IH.
    + rewrite IH. simpl. now rewrite Ec.
  - destruct (rstrip s) as [|c' r] eqn:Er; simpl; now rewrite ?Er, Ec.
Qed.

(** Trimming does not see white space put around a text. *)
Lemma strip_padded (a t b : string) :
  str_forall is_space a = true -> str_forall is_space b = true ->
  strip (a ++ t ++ b) = strip t.
Proof.
  intros Ha Hb. unfold strip.
  rewrite (lstrip_app_space a _ Ha), rstrip_lstrip_comm,
    (rstrip_app_space t b Hb).
  symmetry. apply rstrip_lstrip_comm.
Qed.

Lemma lower_app (a b : string) : lower (a ++ b) = (lower a ++ lower b)%string.
Proof.
  unfold lower. induction a as [|c a IH]; simpl; congruence.
Qed.

Lemma prefix_app_r (n u w : string) :
  prefix n u = true -> prefix n (u ++ w) = true.
Proof.
  revert n. induction u as [|c u IH]; intros [|d n]; simpl; intros H.
  - now destruct w.
  - discriminate H.
  - reflexivity.
  - destruct (ascii_dec d c); [now apply IH | discriminate H].
Qed.

Lemma contains_app_r (n u w : string) :
  contains n u = true -> contains n (u ++ w) = true.
Proof.
  induction u as [|c u IH]; simpl.
  - rewrite orb_false_r. intros H. destruct n; [|discriminate H].
    destruct w; reflexivity.
  - intros H. apply orb_prop in H as [H | H].
    + apply (prefix_app_r n (String c u) w) in H. simpl in H. rewrite H. reflexivity.
    + rewrite (IH H). apply orb_true_r.
Qed.

Lemma contains_app_l (n u v : string) :
  contains n v = true -> contains n (u ++ v) = true.
Proof.
  intros H. induction u as [|c u IH]; simpl; [exact H|].
  rewrite IH. apply orb_true_r.
Qed.

(** A needle found in a piece of a text is found in the text. *)
Lemma contains_inside (n a s b : string) :
  contains n (lower s) = true -> contains n (lower (a ++ s ++ b)) = true.
Proof.
  intros H. rewrite !lower_app. apply contains_app_l. now apply contains_app_r.
Qed.

Lemma contains_inside_false (n a s b : string) :
  contains n (lower (a ++ s ++ b)) = false -> contains n (lower s) = false.
Proof.
  intros H. destruct (contains n (lower s)) eqn:E; [|reflexivity].
  now rewrite (contains_inside n a s b E) in H.
Qed.

(** ** Rejection depends on the six substring conditions only *)

Lemma rejected_tags_of (text : string) :
  rejected (tags_of text) = reject_condition text.
Proof.
  unfold tags_of, reject_condition.
  generalize (contains "(canceled)" (lower text)),
    (existsb (fun x => contains x (lower text)) crm_needles),
    (contains "delete" (lower text)), (contains "paragraph" (lower text)),
    (contains "article" (lower text)), (contains "clause" (lower text)),
    (re_search_claim text), (String.length text <? 200)%nat.
  intros b1 b2 b3 b4 b5 b6 b7 b8.
  destruct b1, b2, b3, b4, b5, b6, b7, b8; reflexivity.
Qed.

(** The condition passes from a piece of a text to the text. *)
Lemma reject_condition_inside (a s b : string) :
  reject_condition (a ++ s ++ b) = false -> reject_condition s = false.
Proof.
  intros H. unfold reject_condition, crm_needles in *. simpl existsb in *.
  repeat match goal with
         | E : (_ || _) = false |- _ => apply orb_false_elim in E as [? ?]
         end.
  repeat match goal with
         | E : contains ?n (lower (a ++ s ++ b)) = false |- _ =>
             rewrite (contains_inside_false n a s b E); clear E
         end.
  reflexivity.
Qed.

Lemma split_aux_pipe_free (s cur : string) :
  pipe_free cur = true -> Forall (fun p => pipe_free p = true) (split_aux "|" cur s).
Proof.
  revert cur. induction s as [|c s IH]; intros cur Hcur; simpl.
  - constructor; auto.
  - destruct (Ascii.eqb c "|") eqn:E.
    + constructor; auto.
    + apply IH. unfold pipe_free in *. rewrite str_forall_app, Hcur. simpl.
      now rewrite E.
Qed.

Lemma fragments_pipe_free (cell : pyval) :
  Forall (fun p => pipe_free p = true) (fragments cell).
Proof.
  unfold fragments. destruct (truthy cell); [|constructor].
  now apply split_aux_pipe_free.
Qed.

Lemma kept_entry_clean (part t : string) :
  pipe_free part = true -> In t (kept_entry part) -> clean_kept t.
Proof.
  intros Hp. unfold kept_entry, clean_claim_text.
  destruct (part =? "").
  - simpl. intros [<- | []]. repeat split.
  - rewrite rejected_tags_of.
    destruct (reject_condition (remove_non_ascii (strip part))) eqn:E;
      intros Hin; simpl in Hin; [contradiction|].
    destruct Hin as [<- | []]. repeat split; auto.
    + apply str_forall_filter_self.
    + apply str_forall_filter. now apply str_forall_strip.
Qed.

Lemma kept_of_clean (parts : list string) :
  Forall (fun p => pipe_free p = true) parts -> Forall clean_kept (kept_of parts).
Proof.
  induction 1 as [|p parts Hp _ IH]; simpl; [constructor|].
  apply Forall_app. split; [|exact IH].
  apply Forall_forall. intros t. now apply kept_entry_clean.
Qed.

Lemma split_aux_app_free (a s cur : string) :
  pipe_free a = true ->
  split_aux "|" cur (a ++ s) = split_aux "|" (cur ++ a) s.
Proof.
  revert cur. induction a as [|c a IH]; intros cur H; simpl.
  - now rewrite append_nil_r.
  - simpl in H. apply andb_prop in H as [Hc Ha].
    apply negb_true_iff in Hc. rewrite Hc, (IH _ Ha), append_assoc. reflexivity.
Qed.

Lemma split_join_padded (ts : list string) :
  forall t cur,
    str_forall is_space cur = true ->
    Forall clean_kept (t :: ts) ->
    Forall padded_kept (split_aux "|" cur (join " | " (t :: ts))).
Proof.
  induction ts as [|t' ts IH]; intros t cur Hcur Hall.
  - simpl. inversion Hall as [|? ? Ht _]; subst.
    rewrite <- (append_nil_r t) at 1.
    rewrite split_aux_app_free by apply Ht. simpl.
    constructor; [|constructor].
    exists cur, t, "". rewrite append_nil_r. repeat split; auto; apply Ht.
  - inversion Hall as [|? ? Ht Hrest]; subst.
    change (join " | " (t :: t' :: ts))
      with (t ++ " | " ++ join " | " (t' :: ts))%string.
    rewrite split_aux_app_free by apply Ht.
    change (" | " ++ join " | " (t' :: ts))%string
      with (String " " (String "|" (String " " (join " | " (t' :: ts))))).
    cbn [split_aux Ascii.eqb Bool.eqb]. simpl Ascii.eqb.
    constructor.
    + exists cur, t, " ". rewrite append_assoc. repeat split; auto; apply Ht.
    + apply (IH t' " "); auto.
Qed.

Lemma strip_ascii_only (t : string) :
  ascii_only t = true -> remove_non_ascii (strip t) = strip t.
Proof.
  intros H. apply str_filter_id. now apply str_forall_strip.
Qed.

Lemma padded_kept_not_rejected (key : pyval) (p : string) :
  padded_kept p -> rejected_entry key p = [].
Proof.
  intros (a & t & b & -> & Ha & Hb & Hascii & _ & Hrej).
  unfold rejected_entry, clean_claim_text.
  destruct (a ++ t ++ b =? ""); [reflexivity|].
  rewrite rejected_tags_of, (strip_padded a t b Ha Hb), (strip_ascii_only t Hascii).
  destruct (strip_inside t) as (u & v & E).
  rewrite E in Hrej. now rewrite (reject_condition_inside u (strip t) v Hrej).
Qed.

(** The fragments of a rebuilt claim cell add nothing to the rejected
    sheet. *)
Lemma rebuilt_cell_not_rejected (key : pyval) (kept : list string) :
  Forall clean_kept kept ->
  rejected_of key (fragments (PStr (join " | " kept))) = [].
Proof.
  intros Hall. unfold fragments, truthy.
  destruct (join " | " kept =? "") eqn:Ej; simpl; [reflexivity|].
  destruct kept as [|t ts]; [discriminate Ej|].
  assert (H : Forall padded_kept (split "|" (join " | " (t :: ts)))).
  { unfold split. now apply split_join_padded. }
  unfold rejected_of. induction H as [|p ps Hp _ IH]; simpl; [reflexivity|].
  now rewrite (padded_kept_not_rejected key p Hp), IH.
Qed.

Lemma index_get_set_nth_eq {A : Type} (i : nat) (v : A) (l : list A) (a : A) :
  index_get l i = Ok a -> index_get (set_nth i v l) i = Ok v.
Proof.
  intros H. apply index_get_Ok in H. unfold index_get.
  rewrite nth_error_set_nth_eq; [reflexivity|].
  apply nth_error_Some. congruence.
Qed.

Lemma index_get_set_nth_total {A : Type} (i j : nat) (v : A) (l : list A) (a : A) :
  index_get l j = Ok a -> exists a', index_get (set_nth i v l) j = Ok a'.
Proof.
  intros H. apply index_get_in_range. rewrite length_set_nth.
  apply index_get_Ok in H. apply nth_error_Some. congruence.
Qed.

(** A row rebuilt by the first run goes through the second run with no
    rejected record. *)
Lemma row_result_again (idx : nat) (r : row) (x : row * list row) :
  row_result idx r = Ok x ->
  exists r2, row_result idx (fst x) = Ok (r2, []).
Proof.
  unfold row_result. intros H.
  destruct (index_get r key_col_idx) as [key|e] eqn:Ek; simpl in H; [|discriminate H].
  destruct (index_get r idx) as [cell|e] eqn:Ec; simpl in H; [|discriminate H].
  injection H as <-. simpl.
  destruct (index_get_set_nth_total idx key_col_idx
              (PStr (join " | " (kept_of (fragments cell)))) r key Ek) as [key' ->].
  rewrite (index_get_set_nth_eq idx _ r cell Ec). simpl.
  rewrite rebuilt_cell_not_rejected.
  - eexists. reflexivity.
  - apply kept_of_clean, fragments_pipe_free.
Qed.

Lemma map_result_again (idx : nat) (rows : list row) (xs : list (row * list row)) :
  Forall2 (fun r x => row_result idx r = Ok x) rows xs ->
  exists ys, map_result (row_result idx) (map fst xs) = Ok ys
             /\ flat_map snd ys = [].
Proof.
  induction 1 as [|r x rows xs Hx _ (ys & Hys & Hnil)]; simpl.
  - exists []. split; reflexivity.
  - destruct (row_result_again idx r x Hx) as [r2 ->]. simpl. rewrite Hys. simpl.
    exists ((r2, []) :: ys). split; [reflexivity|]. simpl. exact Hnil.
Qed.

(** C5: when a run succeeds, a second run on its first output sheet
    succeeds too, and its rejected sheet holds the header row only. *)
Theorem second_run_rejects_nothing (ws : sheet) (updated rej : list row) :
  process_details_sheet ws = Ok (updated, rej) ->
  exists updated2,
    process_details_sheet (reload updated) = Ok (updated2, [rejected_header]).
Proof.
  intros H. apply process_details_sheet_Ok in H as (idx & xs & Hi & Hrows & -> & _).
  unfold process_details_sheet. simpl. rewrite Hi, for_each_row_step.
  destruct (map_result_again idx _ xs Hrows) as (ys & -> & Hnil).
  simpl. rewrite Hnil. eexists. reflexivity.
Qed.

Lemma second_run_rejects_nothing_witness :
  exists updated2,
    process_details_sheet
      (reload [[PStr "Publication Number"; PStr "Independent Claims"; PStr "Title"];
               [PStr "US1"; PStr "Claim 1 is valid."; PStr "T1"];
               [PStr "US2"; PStr ""; PInt 7];
               [PStr "US3"; PStr "a |  | b"; PBool true]])
    = Ok (updated2, [rejected_header]).
Proof.
  apply (second_run_rejects_nothing demo_sheet _
           [rejected_header;
            [PStr "US1"; PStr "(canceled)"; PStr "cancel, probable dependent"];
            [PStr "US1"; PStr "This invention relates to a computer program.";
             PStr "CRM, probable dependent"]]).
  reflexivity.
Defined.

(** ** The info sheet: where an output row comes from *)

Lemma Forall2_In_r {A B : Type} (R : A -> B -> Prop) (l : list A) (l' : list B) (y : B) :
  Forall2 R l l' -> In y l' -> exists x, In x l /\ R x y.
Proof.
  induction 1 as [|a b l l' Hab _ IH]; simpl; [contradiction|].
  intros [<- | Hin].
  - exists a. auto.
  - destruct (IH Hin) as (x & Hx & HR). exists x. auto.
Qed.

Lemma Forall2_In_l {A B : Type} (R : A -> B -> Prop) (l : list A) (l' : list B) (x : A) :
  Forall2 R l l' -> In x l -> exists y, In y l' /\ R x y.
Proof.
  induction 1 as [|a b l l' Hab _ IH]; simpl; [contradiction|].
  intros [<- | Hin].
  - exists b. auto.
  - destruct (IH Hin) as (y & Hy & HR). exists y. auto.
Qed.

Lemma index_of_some (name : string) (headers : row) :
  In (PStr name) headers -> exists i, index_of name headers = Some i.
Proof.
  induction headers as [|h rest IH]; simpl; [contradiction|].
  intros [-> | Hin].
  - simpl. rewrite String.eqb_refl. eauto.
  - destruct (pyval_is_str h name); [eauto|].
    destruct (IH Hin) as [i ->]. simpl. eauto.
Qed.

Lemma merge_left_base (fam : list family_row) (b b' : base_row) (fid : pyval) :
  In (b', fid) (merge_left fam b) -> b' = b.
Proof.
  unfold merge_left. destruct (filter _ fam) as [|f fs].
  - simpl. intros [H | []]. congruence.
  - intros H. apply in_map_iff in H as (f' & E & _). congruence.
Qed.

Lemma merge_left_nonempty (fam : list family_row) (b : base_row) :
  exists fid, In (b, fid) (merge_left fam b).
Proof.
  unfold merge_left. destruct (filter _ fam) as [|f fs]; simpl; eauto.
Qed.

Lemma base_of_Ok (rt : runtime) (m : meta_row) (b : base_row) :
  base_of rt m = Ok b ->
  b_pub b = m_seed_patent m /\ b_app b = m_app m
  /\ b_members b = base_members rt (m_ext m)
  /\ claim_number rt (m_claim m) = Ok (b_claim b).
Proof.
  unfold base_of.
  destruct (claim_number rt (m_claim m)) as [c|e]; simpl; [|discriminate].
  intros H. injection H as <-. simpl. auto.
Qed.

Lemma finish_Ok (earliest : dict) (b : base_row) (fid : pyval) (r : info_row) :
  finish earliest (b, fid) = Ok r ->
  i_pub r = b_pub b /\ i_app r = b_app b /\ i_family_id r = fid
  /\ i_claim r = b_claim b
  /\ concat_published earliest (py_str (b_members b)) (b_app b) = Ok (i_members r).
Proof.
  unfold finish.
  destruct (concat_published earliest _ _) as [members|e]; simpl; [|discriminate].
  intros H. injection H as <-. simpl. auto.
Qed.

(** What a successful build went through. *)
Lemma process_info_sheet_Ok (rt : runtime) (meta : list meta_row)
      (fam : list family_row) (df_cleaned : sheet) (rows : list info_row) (n : nat) :
  process_info_sheet rt meta fam df_cleaned = Ok (rows, n) ->
  exists base,
    map_result (base_of rt) (filter (fun m => is_seed (m_seed m)) meta) = Ok base
    /\ map_result (finish (earliest_pub_map fam)) (flat_map (merge_left fam) base)
       = Ok rows
    /\ n = List.length (filter (fun m => is_seed (m_seed m)) meta).
Proof.
  unfold process_info_sheet. intros H.
  destruct (column df_cleaned "Publication Number"); cbn [bind] in H;
    [|discriminate H].
  destruct (column df_cleaned claim_col_name); cbn [bind] in H; [|discriminate H].
  destruct (map_result (base_of rt) (filter (fun m => is_seed (m_seed m)) meta))
    as [base|e] eqn:Ebase; cbn [bind] in H; [|discriminate H].
  destruct (map_result (finish (earliest_pub_map fam))
              (flat_map (merge_left fam) base)) as [rows'|e] eqn:Erows;
    cbn [bind] in H; [|discriminate H].
  injection H as <- <-. exists base. repeat split. exact Erows.
Qed.

Lemma info_row_origin (rt : runtime) (meta : list meta_row) (fam : list family_row)
      (df_cleaned : sheet) (rows : list info_row) (n : nat) (r : info_row) :
  process_info_sheet rt meta fam df_cleaned = Ok (rows, n) ->
  In r rows ->
  exists m,
    In m meta /\ is_seed (m_seed m) = true
    /\ i_pub r = m_seed_patent m /\ i_app r = m_app m
    /\ claim_number rt (m_claim m) = Ok (i_claim r)
    /\ concat_published (earliest_pub_map fam)
         (py_str (base_members rt (m_ext m))) (m_app m)
       = Ok (i_members r).
Proof.
  intros H Hin. apply process_info_sheet_Ok in H as (base & Hbase & Hrows & _).
  apply map_result_Ok in Hbase, Hrows.
  destruct (Forall2_In_r _ _ _ _ Hrows Hin) as ([b fid] & Hbf & Hfin).
  apply in_flat_map in Hbf as (b0 & Hb0 & Hbf).
  apply merge_left_base in Hbf as ->.
  destruct (Forall2_In_r _ _ _ _ Hbase Hb0) as (m & Hm & Hb).
  apply filter_In in Hm as [Hm Hseed].
  apply base_of_Ok in Hb as (Hp & Ha & Hmem & Hc).
  apply finish_Ok in Hfin as (Hip & Hia & _ & Hic & Hcp).
  exists m. rewrite Hip, Hia, Hic, Hp, Ha. rewrite Hmem, Ha in Hcp. auto 10.
Qed.

(** Every seed row is in the output of a successful build. *)
Lemma seed_row_output (rt : runtime) (meta : list meta_row) (fam : list family_row)
      (df_cleaned : sheet) (rows : list info_row) (n : nat) (m : meta_row) :
  process_info_sheet rt meta fam df_cleaned = Ok (rows, n) ->
  In m meta -> is_seed (m_seed m) = true ->
  exists r,
    In r rows /\ i_pub r = m_seed_patent m /\ i_app r = m_app m
    /\ claim_number rt (m_claim m) = Ok (i_claim r).
Proof.
  intros H Hm Hseed. apply process_info_sheet_Ok in H as (base & Hbase & Hrows & _).
  apply map_result_Ok in Hbase, Hrows.
  assert (Hin : In m (filter (fun m => is_seed (m_seed m)) meta))
    by (apply filter_In; auto).
  destruct (Forall2_In_l _ _ _ _ Hbase Hin) as (b & Hb & Hbof).
  destruct (merge_left_nonempty fam b) as [fid Hfid].
  assert (Hbf : In (b, fid) (flat_map (merge_left fam) base))
    by (apply in_flat_map; eauto).
  destruct (Forall2_In_l _ _ _ _ Hrows Hbf) as (r & Hr & Hfin).
  apply base_of_Ok in Hbof as (Hp & Ha & _ & Hc).
  apply finish_Ok in Hfin as (Hip & Hia & _ & Hic & _).
  exists r. rewrite Hip, Hia, Hic, Hp, Ha. auto.
Qed.




(** ** Claim number *)

Lemma extract_digits_skip (rt : runtime) (pre t : text) :
  no_decimal rt pre = true -> extract_digits rt (pre ++ t) = extract_digits rt t.
Proof.
  unfold no_decimal. induction pre as [|c pre IH]; simpl; [reflexivity|].
  intros H. apply andb_prop in H as [Hc Hpre].
  apply negb_true_iff in Hc. rewrite Hc. auto.
Qed.

Lemma take_digits_run (rt : runtime) (ds post : text) :
  forallb (is_decimal rt) ds = true ->
  match post with c :: _ => is_decimal rt c = false | [] => True end ->
  take_digits rt (ds ++ post) = ds.
Proof.
  intros Hds Hpost. induction ds as [|c ds IH]; simpl.
  - destruct post as [|c post]; simpl in *; [reflexivity|]. now rewrite Hpost.
  - simpl in Hds. apply andb_prop in Hds as [Hc Hds]. rewrite Hc. f_equal. auto.
Qed.

Lemma extract_digits_first_run (rt : runtime) (t : text) (o : option text) :
  FirstRun rt t o -> extract_digits rt t = o.
Proof.
  intros [Hno | pre ds post -> Hpre Hne Hds Hpost].
  - unfold no_decimal in Hno. induction t as [|c t IH]; simpl; [reflexivity|].
    simpl in Hno. apply andb_prop in Hno as [Hc Ht].
    apply negb_true_iff in Hc. rewrite Hc. auto.
  - rewrite (extract_digits_skip rt pre _ Hpre).
    destruct ds as [|c ds]; [congruence|].
    pose proof (take_digits_run rt (c :: ds) post Hds Hpost) as E.
    simpl in Hds. apply andb_prop in Hds as [Hc _].
    simpl in *. rewrite Hc in *. now rewrite E.
Qed.

Lemma take_digits_split (rt : runtime) (t : text) :
  exists post,
    t = take_digits rt t ++ post
    /\ forallb (is_decimal rt) (take_digits rt t) = true
    /\ match post with c :: _ => is_decimal rt c = false | [] => True end.
Proof.
  induction t as [|c t (post & E & Hd & Hp)]; simpl.
  - exists []. simpl. auto.
  - destruct (is_decimal rt c) eqn:Ec.
    + exists post. simpl. rewrite Ec. split; [congruence|]. split; assumption.
    + exists (c :: t). simpl. auto.
Qed.

(** Every text has a first run of digits or no digit at all. *)
Lemma first_run_total (rt : runtime) (t : text) : FirstRun rt t (extract_digits rt t).
Proof.
  induction t as [|c t IH]; simpl.
  - now constructor.
  - destruct (is_decimal rt c) eqn:Ec.
    + destruct (take_digits_split rt t) as (post & E & Hd & Hp).
      apply (FirstRun_some rt _ [] (c :: take_digits rt t) post); simpl; auto.
      * congruence.
      * discriminate.
      * now rewrite Ec.
    + inversion IH as [Hno Ho | pre ds post E Hpre Hne Hds Hpost Ho].
      * constructor. unfold no_decimal in *. simpl. now rewrite Ec.
      * apply (FirstRun_some rt _ (c :: pre) ds post); auto.
        -- simpl. congruence.
        -- unfold no_decimal in *. simpl. now rewrite Ec.
Qed.

Lemma claim_number_error (rt : runtime) (c : claim_cell) (e : error) :
  claim_number rt c = Err e -> e = OverflowError.
Proof.
  unfold claim_number, to_Int64.
  destruct (claim_str rt c) as [t|]; [|discriminate].
  destruct (extract_digits rt t) as [ds|]; [|discriminate].
  destruct (_ <=? _)%Z; [discriminate|]. congruence.
Qed.

Lemma map_result_Err {A B : Type} (f : A -> result B) (l : list A) (x : A) (e : error) :
  (forall y e', f y = Err e' -> e' = e) ->
  In x l -> f x = Err e -> map_result f l = Err e.
Proof.
  intros Honly. induction l as [|y l IH]; simpl; [contradiction|].
  intros Hin Hx. destruct (f y) as [v|e'] eqn:Ey; simpl.
  - destruct Hin as [-> | Hin]; [congruence|]. now rewrite (IH Hin Hx).
  - now rewrite (Honly y e' Ey).
Qed.

(** C7, as stated, fails on a claim number that does not fit 64 bits: a
    build that succeeds with one value of the field fails with another. *)
Lemma claim_number_overflow_counterexample :
  ~ (forall (rt : runtime) (m : meta_row) (fam : list family_row)
            (df_cleaned : sheet) (raw : claim_cell),
        (exists out, process_info_sheet rt [m] fam df_cleaned = Ok out) ->
        exists out,
          process_info_sheet rt
            [mkMeta (m_seed m) (m_seed_patent m) (m_app m) (m_ext m) raw]
            fam df_cleaned
          = Ok out).
Proof.
  intros H.
  destruct (H pandas_3
              (mkMeta (PBool true) "US1" "APP1" (PStr "US999")
                      (ClaimText (text_of "Claim 3")))
              [] demo_cleaned
              (ClaimText (text_of "Claim 9223372036854775808")))
    as [out Hout].
  - eexists. vm_compute. reflexivity.
  - vm_compute in Hout. discriminate Hout.
Qed.

(** C7, amended: the claim number is read from the first maximal run of
    decimal digits of the string form of the raw field: missing when the
    field is missing or has no digit, the value of the run when it fits a
    signed 64-bit integer, and an overflow error otherwise.  In a build
    that succeeds, every seed row has output rows and every output row
    carries the number read from its seed row; a seed row whose run does
    not fit makes the build fail with the overflow error. *)
Theorem claim_number_first_digit_run (rt : runtime) :
  (forall raw, claim_str rt raw = None -> claim_number rt raw = Ok None)
  /\ (forall raw t o,
        claim_str rt raw = Some t -> FirstRun rt t o ->
        claim_number rt raw
        = match o with
          | None => Ok None
          | Some ds =>
              if (int_of_digits rt 0 ds <=? int64_max)%Z
              then Ok (Some (int_of_digits rt 0 ds))
              else Err OverflowError
          end)
  /\ (forall meta fam df_cleaned rows n,
        process_info_sheet rt meta fam df_cleaned = Ok (rows, n) ->
        (forall m, In m meta -> is_seed (m_seed m) = true ->
                   exists r, In r rows /\ i_pub r = m_seed_patent m
                             /\ claim_number rt (m_claim m) = Ok (i_claim r))
        /\ (forall r, In r rows ->
                      exists m, In m meta /\ is_seed (m_seed m) = true
                                /\ i_pub r = m_seed_patent m
                                /\ claim_number rt (m_claim m) = Ok (i_claim r)))
  /\ (forall meta fam df_cleaned m,
        In (PStr "Publication Number") (sheet_header df_cleaned) ->
        In (PStr claim_col_name) (sheet_header df_cleaned) ->
        In m meta -> is_seed (m_seed m) = true ->
        claim_number rt (m_claim m) = Err OverflowError ->
        process_info_sheet rt meta fam df_cleaned = Err OverflowError).
Proof.
  split; [|split; [|split]].
  - intros raw H. unfold claim_number. now rewrite H.
  - intros raw t o Hstr Hrun. unfold claim_number.
    rewrite Hstr, (extract_digits_first_run rt t o Hrun). destruct o; reflexivity.
  - intros meta fam df_cleaned rows n Hrun. split.
    + intros m Hm Hseed.
      destruct (seed_row_output _ _ _ _ _ _ m Hrun Hm Hseed) as (r & Hr & Hp & _ & Hc).
      exists r. auto.
    + intros r Hr.
      destruct (info_row_origin _ _ _ _ _ _ r Hrun Hr) as (m & Hm & Hs & Hp & _ & Hc & _).
      exists m. auto.
  - intros meta fam df_cleaned m Hpub Hclaim Hm Hseed Hover.
    unfold process_info_sheet, column.
    destruct (index_of_some _ _ Hpub) as [i ->].
    destruct (index_of_some _ _ Hclaim) as [j ->]. cbn [bind].
    rewrite (map_result_Err (base_of rt) _ m OverflowError).
    + reflexivity.
    + intros y e' Hy. unfold base_of in Hy.
      destruct (claim_number rt (m_claim y)) as [c|e] eqn:Ec; simpl in Hy;
        [discriminate Hy|].
      injection Hy as <-. now apply claim_number_error in Ec.
    + apply filter_In. auto.
    + unfold base_of. now rewrite Hover.
Qed.

Lemma claim_number_first_digit_run_witness :
  claim_number pandas_3 (ClaimText (text_of "Claim 12, 13")) = Ok (Some 12%Z)
  /\ claim_number pandas_3 (ClaimText (text_of "Claim " ++ [1635%N]))
     = Ok (Some 3%Z)
  /\ process_info_sheet pandas_3
       [mkMeta (PBool true) "US1" "APP1" (PStr "US999")
               (ClaimText (text_of "Claim 9223372036854775808"))]
       [] demo_cleaned
     = Err OverflowError.
Proof.
  destruct (claim_number_first_digit_run pandas_3) as (_ & Hrun & _ & Hfail).
  split; [|split].
  - apply (Hrun _ (text_of "Claim 12, 13") (Some (text_of "12"))); [reflexivity|].
    apply (FirstRun_some pandas_3 _ (text_of "Claim ") (text_of "12") (text_of ", 13"));
      try reflexivity.
    discriminate.
  - apply (Hrun _ (text_of "Claim " ++ [1635%N]) (Some [1635%N])); [reflexivity|].
    apply (FirstRun_some pandas_3 _ (text_of "Claim ") [1635%N] []);
      try reflexivity.
    discriminate.
  - apply (Hfail _ [] demo_cleaned
             (mkMeta (PBool true) "US1" "APP1" (PStr "US999")
                     (ClaimText (text_of "Claim 9223372036854775808")))).
    + left. reflexivity.
    + right. left. reflexivity.
    + left. reflexivity.
    + reflexivity.
    + vm_compute. reflexivity.
Defined.

(** ** Earliest publication *)

Lemma compare_refl (a : string) : String.compare a a = Eq.
Proof.
  pose proof (String.compare_antisym a a) as H.
  destruct (String.compare a a); simpl in H; congruence.
Qed.

Lemma compare_lt_trans (a b c : string) :
  String.compare a b = Lt -> String.compare b c = Lt -> String.compare a c = Lt.
Proof.
  intros H1 H2.
  exact (@StrictOrder_Transitive _ _ String_as_OT.lt_strorder a b c H1 H2).
Qed.

Lemma date_leb_trans (x y z : option Z) :
  date_leb x y = true -> date_leb y z = true -> date_leb x z = true.
Proof.
  destruct x, y, z; simpl; try congruence. intros H1 H2.
  apply Z.leb_le in H1, H2. apply Z.leb_le. lia.
Qed.

Lemma date_leb_total (x y : option Z) :
  date_leb x y = false -> date_leb y x = true.
Proof.
  destruct x, y; simpl; try congruence. intros H.
  apply Z.leb_gt in H. apply Z.leb_le. lia.
Qed.

Lemma key_leb_same_app (x y : family_row) :
  f_app x = f_app y -> key_leb x y = date_leb (f_date x) (f_date y).
Proof.
  intros E. unfold key_leb. now rewrite E, compare_refl.
Qed.

Lemma key_leb_trans (x y z : family_row) :
  key_leb x y = true -> key_leb y z = true -> key_leb x z = true.
Proof.
  unfold key_leb.
  destruct (String.compare (f_app x) (f_app y)) eqn:Exy; try discriminate;
    destruct (String.compare (f_app y) (f_app z)) eqn:Eyz; try discriminate;
    intros H1 H2.
  - apply String.compare_eq_iff in Exy, Eyz.
    rewrite Exy, Eyz, compare_refl. eapply date_leb_trans; eauto.
  - apply String.compare_eq_iff in Exy. now rewrite Exy, Eyz.
  - apply String.compare_eq_iff in Eyz. now rewrite <- Eyz, Exy.
  - now rewrite (compare_lt_trans _ _ _ Exy Eyz).
Qed.

Lemma key_leb_total (x y : family_row) :
  key_leb x y = false -> key_leb y x = true.
Proof.
  unfold key_leb. rewrite (String.compare_antisym (f_app x) (f_app y)).
  destruct (String.compare (f_app y) (f_app x)); simpl; try congruence.
  apply date_leb_total.
Qed.

Lemma insert_row_In (x w : family_row) (l : list family_row) :
  In w (insert_row x l) -> w = x \/ In w l.
Proof.
  induction l as [|y l IH]; simpl.
  - intros [<- | []]. now left.
  - destruct (key_leb x y); simpl.
    + intros [<- | H]; auto.
    + intros [<- | H]; auto. destruct (IH H); auto.
Qed.

Lemma insert_row_sorted (x : family_row) (l : list family_row) :
  rows_sorted l -> rows_sorted (insert_row x l).
Proof.
  unfold rows_sorted. induction 1 as [|y l Hs IH Hy]; simpl.
  - repeat constructor.
  - destruct (key_leb x y) eqn:E.
    + constructor; [now constructor|]. constructor; [exact E|].
      eapply Forall_impl; [|exact Hy]. intros w Hw. simpl in Hw.
      eapply key_leb_trans; eauto.
    + constructor; [exact IH|]. apply Forall_forall. intros w Hw.
      apply insert_row_In in Hw as [-> | Hw].
      * now apply key_leb_total.
      * rewrite Forall_forall in Hy. auto.
Qed.

Lemma sort_values_sorted (l : list family_row) : rows_sorted (sort_values l).
Proof.
  induction l as [|x l IH]; simpl; [constructor|]. now apply insert_row_sorted.
Qed.

Lemma first_for_Some (a : string) (l : list family_row) (r : family_row) :
  first_for a l = Some r -> In r l /\ f_app r = a.
Proof.
  intros H. apply find_some in H as [Hin E]. apply String.eqb_eq in E. auto.
Qed.

Lemma first_for_insert_row (a : string) (x : family_row) (l : list family_row) :
  rows_sorted l ->
  first_for a (insert_row x l)
  = if f_app x =? a then
      match first_for a l with
      | None => Some x
      | Some y => if date_leb (f_date x) (f_date y) then Some x else Some y
      end
    else first_for a l.
Proof.
  unfold rows_sorted, first_for.
  induction 1 as [|y l Hs IH Hy]; simpl.
  - destruct (f_app x =? a); reflexivity.
  - destruct (key_leb x y) eqn:Exy; simpl.
    + destruct (f_app x =? a) eqn:Exa; [|reflexivity].
      apply String.eqb_eq in Exa.
      destruct (f_app y =? a) eqn:Eya.
      * apply String.eqb_eq in Eya.
        rewrite key_leb_same_app in Exy by congruence. now rewrite Exy.
      * destruct (find (fun r => f_app r =? a) l) as [z|] eqn:Ez; [|reflexivity].
        apply find_some in Ez as [Hz Eza]. apply String.eqb_eq in Eza.
        rewrite Forall_forall in Hy.
        pose proof (key_leb_trans _ _ _ Exy (Hy z Hz)) as Hxz.
        rewrite key_leb_same_app in Hxz by congruence. now rewrite Hxz.
    + destruct (f_app y =? a) eqn:Eya.
      * destruct (f_app x =? a) eqn:Exa; [|reflexivity].
        apply String.eqb_eq in Exa, Eya.
        rewrite key_leb_same_app in Exy by congruence. now rewrite Exy.
      * exact IH.
Qed.

Lemma first_for_sort_values (a : string) (l : list family_row) :
  first_for a (sort_values l) = earliest_row a l.
Proof.
  induction l as [|x l IH]; simpl; [reflexivity|].
  rewrite first_for_insert_row by apply sort_values_sorted. now rewrite IH.
Qed.

Lemma earliest_row_Some (a : string) (l : list family_row) (r : family_row) :
  earliest_row a l = Some r ->
  In r l /\ f_app r = a
  /\ forall r', In r' l -> f_app r' = a -> date_leb (f_date r) (f_date r') = true.
Proof.
  revert r. induction l as [|x l IH]; simpl; [discriminate|]. intros r.
  destruct (f_app x =? a) eqn:Exa.
  - apply String.eqb_eq in Exa.
    destruct (earliest_row a l) as [y|] eqn:Ey.
    + destruct (IH y eq_refl) as (Hin & Hy & Hmin).
      destruct (date_leb (f_date x) (f_date y)) eqn:Exy; intros H; injection H as <-.
      * repeat split; auto. intros r' [<- | Hr'] Hr'a.
        -- destruct (f_date x); simpl; auto. apply Z.leb_refl.
        -- eapply date_leb_trans; eauto.
      * repeat split; auto. intros r' [<- | Hr'] Hr'a; auto.
        now apply date_leb_total.
    + intros H. injection H as <-. repeat split; auto.
      intros r' [<- | Hr'] Hr'a.
      * destruct (f_date x); simpl; auto. apply Z.leb_refl.
      * exfalso. clear IH. induction l as [|z l IHl]; simpl in *; [contradiction|].
        destruct (f_app z =? a) eqn:Ez.
        -- destruct (earliest_row a l) as [w|]; [destruct (date_leb _ _)|];
             discriminate Ey.
        -- destruct Hr' as [<- | Hr']; auto.
           apply String.eqb_neq in Ez. congruence.
  - intros H. destruct (IH r H) as (Hin & Hr & Hmin). repeat split; auto.
    intros r' [<- | Hr'] Hr'a; auto.
    apply String.eqb_neq in Exa. congruence.
Qed.

Lemma earliest_row_exists (a : string) (l : list family_row) (r' : family_row) :
  In r' l -> f_app r' = a -> exists r, earliest_row a l = Some r.
Proof.
  induction l as [|x l IH]; simpl; [contradiction|].
  intros [<- | Hin] Ha.
  - rewrite Ha, String.eqb_refl.
    destruct (earliest_row a l) as [y|]; [destruct (date_leb _ _)|]; eauto.
  - destruct (IH Hin Ha) as [r ->].
    destruct (f_app x =? a); [destruct (date_leb _ _)|]; eauto.
Qed.

(** ** The dictionary of earliest publications *)

Lemma dict_get_set (d : dict) (k a : string) (v : pyval) :
  dict_get (dict_set d k v) a = if k =? a then Some v else dict_get d a.
Proof.
  induction d as [|[k' v'] d IH]; simpl.
  - reflexivity.
  - destruct (k' =? k) eqn:E; simpl.
    + apply String.eqb_eq in E. subst k'. destruct (k =? a); reflexivity.
    + rewrite IH. destruct (k' =? a) eqn:E'; [|reflexivity].
      apply String.eqb_eq in E'. subst k'.
      rewrite String.eqb_sym in E. now rewrite E.
Qed.

Lemma mem_cons (x y : string) (l : list string) :
  mem x (y :: l) = (x =? y) || mem x l.
Proof. reflexivity. Qed.

Lemma mem_In (x : string) (l : list string) : mem x l = true <-> In x l.
Proof.
  unfold mem. rewrite existsb_exists. split.
  - intros (y & Hy & E). apply String.eqb_eq in E. now subst.
  - intros H. exists x. split; [exact H|apply String.eqb_refl].
Qed.

(** Filling the dictionary from the rows kept by [drop_duplicates] binds an
    application number to the publication of its first row. *)
Lemma dict_of_drop_duplicates (a : string) (l : list family_row) :
  forall seen d,
    dict_get
      (fold_left (fun d kv => dict_set d (fst kv) (snd kv))
         (map (fun r => (f_app r, f_pub r)) (drop_duplicates_from seen l)) d) a
    = if mem a seen then dict_get d a
      else match first_for a l with
           | Some r => Some (f_pub r)
           | None => dict_get d a
           end.
Proof.
  unfold first_for.
  induction l as [|r l IH]; intros seen d; simpl.
  - destruct (mem a seen); reflexivity.
  - destruct (mem (f_app r) seen) eqn:Er; simpl.
    + rewrite IH. destruct (mem a seen) eqn:Ea; [reflexivity|].
      destruct (f_app r =? a) eqn:Era; [|reflexivity].
      apply String.eqb_eq in Era. congruence.
    + rewrite IH, mem_cons, dict_get_set, (String.eqb_sym a (f_app r)).
      destruct (f_app r =? a) eqn:Era; simpl.
      * apply String.eqb_eq in Era. rewrite <- Era, Er. reflexivity.
      * reflexivity.
Qed.

Lemma earliest_pub_map_get (fam : list family_row) (a : string) :
  dict_get (earliest_pub_map fam) a = option_map f_pub (earliest_row a fam).
Proof.
  unfold earliest_pub_map, dict_of, drop_duplicates.
  rewrite dict_of_drop_duplicates. simpl.
  rewrite first_for_sort_values. now destruct (earliest_row a fam).
Qed.

(** ** The set of family members *)

Lemma insert_str_In (x y : string) (l : list string) :
  In y (insert_str x l) <-> y = x \/ In y l.
Proof.
  induction l as [|z l IH]; simpl.
  - intuition.
  - destruct (String.leb x z); simpl; rewrite ?IH; intuition.
Qed.

Lemma sorted_In (y : string) (l : list string) : In y (sorted l) <-> In y l.
Proof.
  induction l as [|x l IH]; simpl; [reflexivity|].
  rewrite insert_str_In, IH. intuition.
Qed.

Lemma to_set_In (y : string) (l : list string) : In y (to_set l) -> In y l.
Proof.
  induction l as [|x l IH]; simpl; [auto|].
  destruct (mem x l); simpl; intuition.
Qed.

Lemma members_set_In (existing pub : string) : In pub (members_set existing pub).
Proof.
  unfold members_set.
  destruct (mem pub _) eqn:E; [now apply mem_In|now left].
Qed.

Lemma members_set_pipe_free (existing pub : string) :
  pipe_free pub = true ->
  Forall (fun p => pipe_free p = true) (members_set existing pub).
Proof.
  intros Hpub.
  assert (H : Forall (fun p => pipe_free p = true)
                (if existing =? "" then [] else to_set (split "|" existing))).
  { destruct (existing =? ""); [constructor|].
    apply Forall_forall. intros p Hp. apply to_set_In in Hp.
    pose proof (split_aux_pipe_free existing "" eq_refl) as Hall.
    rewrite Forall_forall in Hall. now apply Hall. }
  unfold members_set. destruct (mem pub _); auto.
Qed.

(** Splitting a join of pipe-free strings gives the strings back. *)
Lemma split_join_pipe_free (ts : list string) :
  forall t cur,
    Forall (fun p => pipe_free p = true) (t :: ts) ->
    split_aux "|" cur (join "|" (t :: ts)) = (cur ++ t)%string :: ts.
Proof.
  induction ts as [|t' ts IH]; intros t cur Hall;
    inversion Hall as [|? ? Ht Hrest]; subst.
  - simpl. rewrite <- (append_nil_r t) at 1.
    now rewrite split_aux_app_free by exact Ht.
  - change (join "|" (t :: t' :: ts)) with (t ++ "|" ++ join "|" (t' :: ts))%string.
    rewrite split_aux_app_free by exact Ht.
    change ("|" ++ join "|" (t' :: ts))%string with (String "|" (join "|" (t' :: ts))).
    cbn [split_aux]. simpl Ascii.eqb. cbv iota.
    now rewrite (IH t' "" Hrest).
Qed.

Lemma split_join_In (x : string) (l : list string) :
  Forall (fun p => pipe_free p = true) l -> In x l -> In x (split "|" (join "|" l)).
Proof.
  intros Hall Hin. destruct l as [|t ts]; [contradiction|].
  unfold split. now rewrite split_join_pipe_free.
Qed.

(** ** Family members of an output row *)

Lemma earliest_row_is_earliest (fam : list family_row) (a : string)
      (f : family_row) (d : Z) :
  In f fam -> f_app f = a -> f_date f = Some d ->
  exists e, earliest_row a fam = Some e /\ is_earliest fam a e.
Proof.
  intros Hf Ha Hd.
  destruct (earliest_row_exists a fam f Hf Ha) as [e He].
  exists e. split; [exact He|].
  destruct (earliest_row_Some a fam e He) as (Hin & Hea & Hmin).
  repeat split; auto.
  pose proof (Hmin f Hf Ha) as Hfd. rewrite Hd in Hfd.
  destruct (f_date e) as [d0|] eqn:Ed; [|discriminate Hfd].
  exists d0. split; [reflexivity|]. intros e' d' He' Ha' Hd'.
  pose proof (Hmin e' He' Ha') as H. rewrite Hd' in H. now apply Z.leb_le.
Qed.

(** C2, as stated, fails when the earliest publication has an empty
    publication number: the guard of [concat_published] returns the
    members unchanged. *)

Lemma earliest_row_no_row (a : string) (l : list family_row) :
  earliest_row a l = None -> forall y, In y l -> f_app y <> a.
Proof.
  intros H y Hy Ha. destruct (earliest_row_exists a l y Hy Ha) as [r Hr]. congruence.
Qed.

(** The row picked for an application number is the first, in table
    order, of the rows with the least date. *)
Lemma earliest_row_first (a : string) (l : list family_row) :
  forall e,
    earliest_row a l = Some e ->
    exists l1 l2,
      l = l1 ++ e :: l2
      /\ (forall y, In y l1 -> f_app y = a ->
                    date_leb (f_date y) (f_date e) = false)
      /\ (forall y, In y l2 -> f_app y = a ->
                    date_leb (f_date e) (f_date y) = true).
Proof.
  induction l as [|x l IH]; intros e; simpl; [discriminate|].
  destruct (f_app x =? a) eqn:Exa.
  - destruct (earliest_row a l) as [y|] eqn:Ey.
    + destruct (date_leb (f_date x) (f_date y)) eqn:Exy; intros H; injection H as <-.
      * exists [], l. split; [reflexivity|]. split; [intros z []|].
        intros z Hz Hza. destruct (earliest_row_Some a l y Ey) as (_ & _ & Hmin).
        eapply date_leb_trans; eauto.
      * destruct (IH y eq_refl) as (l1 & l2 & -> & H1 & H2).
        exists (x :: l1), l2. split; [reflexivity|]. split; [|exact H2].
        intros z [<- | Hz] Hza; auto.
    + intros H. injection H as <-. exists [], l.
      split; [reflexivity|]. split; [intros z []|].
      intros z Hz Hza. exfalso. exact (earliest_row_no_row a l Ey z Hz Hza).
  - intros H. destruct (IH e H) as (l1 & l2 & -> & H1 & H2).
    exists (x :: l1), l2. split; [reflexivity|]. split; [|exact H2].
    intros z [<- | Hz] Hza; auto.
    apply String.eqb_neq in Exa. congruence.
Qed.

(** C2, as stated, fails when the publication number of the earliest row
    is the number 0: the guard of [concat_published] takes it for a missing
    mapping and returns the members unchanged. *)
Lemma earliest_member_counterexample :
  ~ (forall (rt : runtime) (meta : list meta_row) (fam : list family_row)
            (df_cleaned : sheet) (rows : list info_row) (n : nat)
            (r : info_row) (e : family_row),
        process_info_sheet rt meta fam df_cleaned = Ok (rows, n) ->
        In r rows ->
        is_earliest fam (i_app r) e ->
        (forall e', is_earliest fam (i_app r) e' -> e' = e) ->
        In (py_str (f_pub e)) (split "|" (i_members r))).
Proof.
  intros H.
  specialize (H pandas_3
                [mkMeta (PBool true) "US123" "APP1" (PStr "US999")
                        (ClaimText (text_of "3"))]
                [mkFamily (PInt 0) (PStr "S1") "APP1" (Some 20190601%Z);
                 mkFamily (PStr "US777") (PStr "S2") "APP2" (Some 20180101%Z)]
                demo_cleaned
                [mkInfo "US123" "APP1" PNaN "US999" (Some 3%Z)] 1%nat
                (mkInfo "US123" "APP1" PNaN "US999" (Some 3%Z))
                (mkFamily (PInt 0) (PStr "S1") "APP1" (Some 20190601%Z))
                eq_refl (or_introl eq_refl)).
  simpl in H. destruct H as [H | []].
  - repeat split; simpl; auto.
    exists 20190601%Z. split; [reflexivity|].
    intros e' d' [<- | [<- | []]] Ha E; [|discriminate Ha].
    injection E as <-. lia.
  - intros e' (Hin & Ha & _). simpl in Hin.
    destruct Hin as [<- | [<- | []]]; [reflexivity | discriminate Ha].
  - discriminate H.
Qed.

(** C2, amended: when the family table has a row with a parseable date for
    the application number of an output row, the row [e] picked for that
    number is an earliest such row, the first of them in the table.  If its
    publication number is truthy, it is a text that is not empty and the
    members of the output row are the pipe-join of a sorted set that holds
    it, whatever the members were before; it is then one of the
    pipe-separated members when it holds no pipe.  If it is falsy (the
    number 0, False, an empty text), the members are left as they were. *)
Theorem earliest_publication_is_member
        (rt : runtime) (meta : list meta_row) (fam : list family_row)
        (df_cleaned : sheet) (rows : list info_row) (n : nat) (r : info_row)
        (f : family_row) (d : Z) :
  process_info_sheet rt meta fam df_cleaned = Ok (rows, n) ->
  In r rows ->
  In f fam -> f_app f = i_app r -> f_date f = Some d ->
  exists (m : meta_row) (e : family_row) (l1 l2 : list family_row),
    In m meta /\ i_pub r = m_seed_patent m
    /\ is_earliest fam (i_app r) e
    /\ fam = l1 ++ e :: l2
    /\ (forall y, In y l1 -> f_app y = i_app r ->
                  date_leb (f_date y) (f_date e) = false)
    /\ (truthy (f_pub e) = true ->
        exists p,
          f_pub e = PStr p /\ p <> ""
          /\ i_members r
             = join "|" (sorted (members_set (py_str (base_members rt (m_ext m))) p))
          /\ In p (sorted (members_set (py_str (base_members rt (m_ext m))) p))
          /\ (pipe_free p = true -> In p (split "|" (i_members r))))
    /\ (truthy (f_pub e) = false ->
        i_members r = py_str (base_members rt (m_ext m))).
Proof.
  intros Hrun Hr Hf Ha Hd.
  destruct (info_row_origin _ _ _ _ _ _ _ Hrun Hr)
    as (m & Hm & _ & Hpub & Happ & _ & Hmem).
  destruct (earliest_row_is_earliest fam (i_app r) f d Hf Ha Hd) as (e & He & Hearly).
  destruct (earliest_row_first _ _ e He) as (l1 & l2 & Hsplit & Hfirst & _).
  exists m, e, l1, l2.
  split; [exact Hm|]. split; [exact Hpub|]. split; [exact Hearly|].
  split; [exact Hsplit|]. split; [exact Hfirst|].
  assert (Hget : dict_get (earliest_pub_map fam) (m_app m) = Some (f_pub e)).
  { now rewrite earliest_pub_map_get, <- Happ, He. }
  unfold concat_published in Hmem. rewrite Hget in Hmem.
  split.
  - intros Ht. rewrite Ht in Hmem. cbn [negb] in Hmem.
    destruct (f_pub e) as [| |p| |] eqn:Ep; try discriminate Hmem.
    injection Hmem as Hmem. exists p.
    assert (Hne : p <> "").
    { simpl in Ht. apply negb_true_iff in Ht. now apply String.eqb_neq. }
    set (mset := members_set _ _) in *.
    assert (HS : In p (sorted mset)) by apply sorted_In, members_set_In.
    split; [reflexivity|]. split; [exact Hne|]. split; [now rewrite Hmem|].
    split; [exact HS|].
    intros Hfree. rewrite <- Hmem. apply split_join_In; [|exact HS].
    apply Forall_forall. intros q Hq. apply (proj1 (sorted_In q mset)) in Hq.
    pose proof (members_set_pipe_free (py_str (base_members rt (m_ext m))) _ Hfree)
      as Hall.
    rewrite Forall_forall in Hall. apply Hall. exact Hq.
  - intros Ht. rewrite Ht in Hmem. cbn [negb] in Hmem. now injection Hmem as <-.
Qed.

Lemma earliest_publication_is_member_witness :
  exists (m : meta_row) (e : family_row) (l1 l2 : list family_row),
    In m demo_meta /\ "US123" = m_seed_patent m
    /\ is_earliest demo_family "APP1" e
    /\ demo_family = l1 ++ e :: l2
    /\ (forall y, In y l1 -> f_app y = "APP1" ->
                  date_leb (f_date y) (f_date e) = false)
    /\ (truthy (f_pub e) = true ->
        exists p,
          f_pub e = PStr p /\ p <> ""
          /\ "US555|US999"
             = join "|" (sorted (members_set (py_str (base_members pandas_3 (m_ext m))) p))
          /\ In p (sorted (members_set (py_str (base_members pandas_3 (m_ext m))) p))
          /\ (pipe_free p = true -> In p (split "|" "US555|US999")))
    /\ (truthy (f_pub e) = false ->
        "US555|US999" = py_str (base_members pandas_3 (m_ext m))).
Proof.
  apply (earliest_publication_is_member pandas_3 demo_meta demo_family demo_cleaned
           [mkInfo "US123" "APP1" (PStr "Simple1") "US555|US999" (Some 3%Z)] 1%nat
           (mkInfo "US123" "APP1" (PStr "Simple1") "US555|US999" (Some 3%Z))
           (mkFamily (PStr "US123") (PStr "Simple1") "APP1" (Some 20200101%Z))
           20200101%Z).
  - vm_compute. reflexivity.
  - left. reflexivity.
  - left. reflexivity.
  - reflexivity.
  - reflexivity.
Defined.

(** * Further properties *)

(** ** The classifier *)

Lemma str_filter_length (p : ascii -> bool) (s : string) :
  (String.length (str_filter p s) <= String.length s)%nat.
Proof.
  induction s as [|c s IH]; simpl; [lia|]. destruct (p c); simpl; lia.
Qed.

(** X1: [remove_non_ascii] gives a text made of ASCII characters only, not
    longer than its argument; applying it twice changes nothing more, it
    distributes over concatenation, and a value that is not a string comes
    back unchanged. *)
Theorem remove_non_ascii_keeps_ascii (s t : string) :
  ascii_only (remove_non_ascii s) = true
  /\ (String.length (remove_non_ascii s) <= String.length s)%nat
  /\ remove_non_ascii (remove_non_ascii s) = remove_non_ascii s
  /\ remove_non_ascii (s ++ t) = (remove_non_ascii s ++ remove_non_ascii t)%string
  /\ (forall z, remove_non_ascii_val (PInt z) = PInt z)
  /\ (forall b, remove_non_ascii_val (PBool b) = PBool b)
  /\ remove_non_ascii_val PNone = PNone
  /\ remove_non_ascii_val PNaN = PNaN.
Proof.
  unfold remove_non_ascii, ascii_only. repeat split.
  - apply str_forall_filter_self.
  - apply str_filter_length.
  - apply str_filter_id, str_forall_filter_self.
  - induction s as [|c s IH]; simpl; [reflexivity|].
    destruct (ord c <? 128)%N; simpl; now rewrite IH.
Qed.

(** X2: the tags of a classification come in the order of the tag table
    and none is repeated: the list is the table filtered by membership. *)
Theorem tags_in_table_order (v : pyval) :
  snd (clean_claim_text v)
  = filter (fun t => mem t (snd (clean_claim_text v))) all_tags
  /\ NoDup (snd (clean_claim_text v)).
Proof.
  assert (H : snd (clean_claim_text v)
              = filter (fun t => mem t (snd (clean_claim_text v))) all_tags).
  { destruct v as [| |s| |]; try reflexivity.
    unfold clean_claim_text. destruct (s =? ""); [reflexivity|].
    cbn [snd]. unfold tags_of.
    generalize (contains "(canceled)" (lower (remove_non_ascii (strip s)))),
      (existsb (fun x => contains x (lower (remove_non_ascii (strip s)))) crm_needles),
      (contains "delete" (lower (remove_non_ascii (strip s)))),
      (contains "paragraph" (lower (remove_non_ascii (strip s)))),
      (contains "article" (lower (remove_non_ascii (strip s)))),
      (contains "clause" (lower (remove_non_ascii (strip s)))),
      (re_search_claim (remove_non_ascii (strip s))),
      (String.length (remove_non_ascii (strip s)) <? 200)%nat.
    intros b1 b2 b3 b4 b5 b6 b7 b8.
    destruct b1, b2, b3, b4, b5, b6, b7, b8; reflexivity. }
  split; [exact H|]. rewrite H. apply NoDup_filter.
  unfold all_tags, reject_tags. simpl.
  repeat (constructor; [simpl; intuition discriminate|]). constructor.
Qed.

Lemma prefix_split (n s : string) :
  prefix n s = true -> exists v, s = (n ++ v)%string.
Proof.
  revert n. induction s as [|c s IH]; intros [|d n]; simpl; intros H.
  - now exists "".
  - discriminate H.
  - now exists (String c s).
  - destruct (ascii_dec d c) as [->|]; [|discriminate H].
    destruct (IH n H) as [v ->]. now exists v.
Qed.

Lemma contains_split (n s : string) :
  contains n s = true -> exists u v, s = (u ++ n ++ v)%string.
Proof.
  induction s as [|c s IH]; cbn [contains]; intros H.
  - rewrite orb_false_r in H. apply prefix_split in H as [v Hv]. now exists "", v.
  - apply orb_prop in H as [H | H].
    + apply prefix_split in H as [v Hv]. now exists "", v.
    + destruct (IH H) as (u & v & ->). now exists (String c u), v.
Qed.

(** A needle found in a needle that is found in a text is found in the
    text. *)
Lemma contains_trans (a b s : string) :
  contains a b = true -> contains b s = true -> contains a s = true.
Proof.
  intros Hab Hbs. apply contains_split in Hbs as (u & v & ->).
  apply contains_app_l. now apply contains_app_r.
Qed.

Lemma crm_needles_computer (text : string) :
  existsb (fun x => contains x text) crm_needles = contains "computer" text.
Proof.
  unfold crm_needles. simpl existsb. rewrite orb_false_r.
  destruct (contains "computer" text) eqn:E; [now rewrite !orb_true_r|].
  rewrite !orb_false_r.
  assert (H : forall n, contains "computer" n = true -> contains n text = false).
  { intros n Hn. destruct (contains n text) eqn:En; [|reflexivity].
    now rewrite (contains_trans _ _ _ Hn En) in E. }
  rewrite (H "non-transitory computer-readable medium") by (vm_compute; reflexivity).
  rewrite (H "computer-readable medium") by (vm_compute; reflexivity).
  now rewrite (H "computer program") by (vm_compute; reflexivity).
Qed.

Lemma mem_tags_of (text : string) :
  mem "CRM" (tags_of text) = existsb (fun x => contains x (lower text)) crm_needles
  /\ mem "probable dependent" (tags_of text)
     = re_search_claim text || (String.length text <? 200)%nat
  /\ mem "cancel" (tags_of text) = contains "(canceled)" (lower text).
Proof.
  unfold tags_of.
  generalize (contains "(canceled)" (lower text)),
    (existsb (fun x => contains x (lower text)) crm_needles),
    (contains "delete" (lower text)), (contains "paragraph" (lower text)),
    (contains "article" (lower text)), (contains "clause" (lower text)),
    (re_search_claim text), (String.length text <? 200)%nat.
  intros b1 b2 b3 b4 b5 b6 b7 b8.
  destruct b1, b2, b3, b4, b5, b6, b7, b8; repeat split; reflexivity.
Qed.

(** X3: the tag [CRM] is given exactly to the fragments whose normalised
    text holds the word [computer], whatever its case: the three longer
    needles of line 24 add nothing. *)
Theorem crm_tag_iff_computer (s : string) :
  s <> "" ->
  (In "CRM" (snd (clean_claim_text (PStr s)))
   <-> contains "computer" (lower (normalized s)) = true).
Proof.
  intros Hne. unfold clean_claim_text. rewrite (eqb_empty_false s Hne).
  cbn [snd]. fold (normalized s). rewrite <- mem_In.
  destruct (mem_tags_of (normalized s)) as (-> & _ & _).
  now rewrite crm_needles_computer.
Qed.

Lemma crm_tag_iff_computer_witness :
  In "CRM" (snd (clean_claim_text (PStr "A Computer-readable medium")))
  <-> contains "computer" (lower (normalized "A Computer-readable medium")) = true.
Proof.
  apply crm_tag_iff_computer. discriminate.
Defined.

(** X4: a fragment is rejected exactly when it is not empty and its
    normalised text holds, whatever the case, one of the six substrings
    [(canceled)], [computer], [delete], [paragraph], [article], [clause];
    neither its length nor the pattern of dependent claims matters. *)
Theorem rejected_iff_needle (s : string) :
  rejected (snd (clean_claim_text (PStr s)))
  = negb (s =? "")
    && existsb (fun n => contains n (lower (normalized s))) reject_needles.
Proof.
  unfold clean_claim_text. destruct (s =? ""); [reflexivity|].
  cbn [snd negb andb]. fold (normalized s).
  rewrite rejected_tags_of. unfold reject_condition, reject_needles.
  rewrite crm_needles_computer. simpl existsb.
  rewrite orb_false_r, !orb_assoc. reflexivity.
Qed.

(** X5: a fragment that is not empty gets the tag [probable dependent]
    exactly when its normalised text matches the pattern of dependent
    claims or is shorter than 200 characters. *)
Theorem probable_dependent_iff (s : string) :
  s <> "" ->
  (In "probable dependent" (snd (clean_claim_text (PStr s)))
   <-> re_search_claim (normalized s) = true
       \/ (String.length (normalized s) < 200)%nat).
Proof.
  intros Hne. unfold clean_claim_text. rewrite (eqb_empty_false s Hne).
  cbn [snd]. fold (normalized s). rewrite <- mem_In.
  destruct (mem_tags_of (normalized s)) as (_ & -> & _).
  rewrite orb_true_iff, Nat.ltb_lt. reflexivity.
Qed.

Lemma probable_dependent_iff_witness :
  In "probable dependent" (snd (clean_claim_text (PStr "as in claim 2")))
  <-> re_search_claim (normalized "as in claim 2") = true
      \/ (String.length (normalized "as in claim 2") < 200)%nat.
Proof.
  apply probable_dependent_iff. discriminate.
Defined.

(** ** The pattern of dependent claims *)

Lemma lower_char_word (c l : ascii) :
  Ascii.eqb (lower_char c) l = true -> is_lower l = true -> is_word c = true.
Proof.
  unfold lower_char, is_word. destruct (is_upper c) eqn:U.
  - intros _ _. now rewrite orb_true_r.
  - intros H Hl. apply Ascii.eqb_eq in H. subst l. rewrite Hl.
    now rewrite orb_true_r.
Qed.

Lemma literal_ci_spec (lit : string) :
  forall s prev p s',
    str_forall is_lower lit = true ->
    literal_ci lit s prev = Some (p, s') ->
    (exists m, s = (m ++ s')%string /\ lower m = lit)
    /\ (word_opt prev = true \/ lit <> "" -> word_opt p = true).
Proof.
  induction lit as [|l lit IH]; intros s prev p s' Hlit H; simpl in H.
  - injection H as <- <-. split.
    + now exists "".
    + intros [Hp | Hne]; [exact Hp | congruence].
  - destruct s as [|c s]; [discriminate H|].
    destruct (Ascii.eqb (lower_char c) l) eqn:Ec; [|discriminate H].
    simpl in Hlit. apply andb_prop in Hlit as [Hl Hlit].
    destruct (IH s (Some c) p s' Hlit H) as ((m & -> & Hm) & Hw). split.
    + exists (String c m). split; [reflexivity|].
      unfold lower in *. simpl. apply Ascii.eqb_eq in Ec. congruence.
    + intros _. apply Hw. left. simpl. eapply lower_char_word; eauto.
Qed.

Lemma spaces_then_digit_digit (s : string) :
  spaces_then_digit s = true -> no_digit s = false.
Proof.
  unfold no_digit. induction s as [|c s IH]; simpl; [discriminate|].
  destruct (is_space c).
  - intros H. rewrite (IH H). apply andb_false_r.
  - intros ->. reflexivity.
Qed.

Lemma tail_at_needs (p : option ascii) (s : string) :
  word_opt p = true -> tail_at p s = true ->
  no_space s = false /\ no_digit s = false.
Proof.
  unfold tail_at, boundary. intros Hp H. rewrite Hp in H.
  apply andb_prop in H as [Hb Hs]. split; [|now apply spaces_then_digit_digit].
  destruct s as [|c s]; simpl in *; [discriminate Hs|].
  unfold no_space. simpl.
  destruct (is_space c); [reflexivity|].
  unfold is_word in Hb. rewrite Hs in Hb. discriminate Hb.
Qed.

Lemma str_forall_suffix_false (q : ascii -> bool) (m s : string) :
  str_forall q s = false -> str_forall q (m ++ s) = false.
Proof.
  intros H. rewrite str_forall_app, H. apply andb_false_r.
Qed.

Lemma prefix_app_self (n v : string) : prefix n (n ++ v) = true.
Proof.
  induction n as [|c n IH]; simpl.
  - now destruct v.
  - destruct (ascii_dec c c); [exact IH | congruence].
Qed.

Lemma contains_prefix (n s : string) : prefix n s = true -> contains n s = true.
Proof.
  intros H. destruct s; cbn [contains]; now rewrite H.
Qed.

Lemma match_at_needs (prev : option ascii) (s : string) :
  match_at prev s = true ->
  no_space s = false /\ no_digit s = false /\ contains "claim" (lower s) = true.
Proof.
  unfold match_at. intros H. apply andb_prop in H as [_ H].
  destruct (literal_ci "claim" s prev) as [[p1 s1]|] eqn:E1; [|discriminate H].
  destruct (literal_ci_spec "claim" s prev p1 s1 eq_refl E1) as ((m1 & -> & Hm1) & Hw1).
  assert (Hp1 : word_opt p1 = true) by (apply Hw1; right; discriminate).
  assert (Hc : contains "claim" (lower (m1 ++ s1)) = true).
  { rewrite lower_app, Hm1. apply contains_prefix, prefix_app_self. }
  assert (Ht : forall p s2 m2, word_opt p = true -> tail_at p s2 = true ->
                 no_space (m1 ++ m2 ++ s2) = false
                 /\ no_digit (m1 ++ m2 ++ s2) = false).
  { intros p s2 m2 Hp Htail.
    destruct (tail_at_needs p s2 Hp Htail) as [Hsp Hdg].
    unfold no_space, no_digit in *.
    split; repeat apply str_forall_suffix_false; assumption. }
  destruct (literal_ci "s" s1 p1) as [[p2 s2]|] eqn:E2.
  - destruct (literal_ci_spec "s" s1 p1 p2 s2 eq_refl E2) as ((m2 & -> & _) & Hw2).
    apply orb_prop in H as [H | H].
    + destruct (Ht p2 s2 m2 (Hw2 (or_introl Hp1)) H) as [? ?]. auto.
    + destruct (Ht p1 (m2 ++ s2)%string "" Hp1 H) as [? ?]. auto.
  - destruct (Ht p1 s1 "" Hp1 H) as [? ?]. auto.
Qed.

Lemma search_from_needs (s : string) :
  forall prev,
    search_from prev s = true ->
    no_space s = false /\ no_digit s = false /\ contains "claim" (lower s) = true.
Proof.
  induction s as [|c s IH]; intros prev H; cbn [search_from] in H;
    apply orb_prop in H as [H | H]; try (now apply match_at_needs in H).
  - discriminate H.
  - destruct (IH _ H) as (Hsp & Hdg & Hc). unfold no_space, no_digit in *.
    repeat split.
    + simpl. rewrite Hsp. apply andb_false_r.
    + simpl. rewrite Hdg. apply andb_false_r.
    + unfold lower in *. cbn [str_map contains]. rewrite Hc. apply orb_true_r.
Qed.

(** X6: the pattern of line 35 only matches a text that holds the word
    [claim] (in any case), a white space and a digit: [claim1], with no
    space between the word and the number, is not a dependent claim for the
    classifier. *)
Theorem pattern_needs_space_and_digit (text : string) :
  re_search_claim text = true ->
  contains "claim" (lower text) = true
  /\ no_space text = false
  /\ no_digit text = false.
Proof.
  intros H. apply search_from_needs in H as (? & ? & ?). auto.
Qed.

Lemma pattern_needs_space_and_digit_witness :
  contains "claim" (lower "The device of Claims 3") = true
  /\ no_space "The device of Claims 3" = false
  /\ no_digit "The device of Claims 3" = false.
Proof.
  apply pattern_needs_space_and_digit. vm_compute. reflexivity.
Defined.

(** ** The two sheets of the details workbook *)

Lemma rejected_entry_record (r : row) (key : pyval) (part : string) (rec : row) :
  nth_error r key_col_idx = Some key ->
  In rec (rejected_entry key part) -> record_of_row r rec.
Proof.
  intros Hkey. unfold rejected_entry.
  destruct (clean_claim_text (PStr part)) as [text comments] eqn:E.
  destruct (rejected comments) eqn:Er; simpl; [|contradiction].
  intros [<- | []]. exists key, part. rewrite E. simpl. auto.
Qed.

(** X7: in a run that succeeds, the rejected sheet is its header followed
    by records of three cells; each record carries the first cell of one of
    the data rows, unchanged, with the normalised text and the comma-joined
    tags of a fragment that has a rejecting tag. *)
Theorem rejected_records_keep_key (ws : sheet) (updated rej : list row) :
  process_details_sheet ws = Ok (updated, rej) ->
  exists recs,
    rej = rejected_header :: recs
    /\ Forall (fun rec => exists r, In r (sheet_rows ws) /\ record_of_row r rec) recs.
Proof.
  intros H. apply process_details_sheet_Ok in H as (idx & xs & _ & Hrows & _ & ->).
  eexists. split; [reflexivity|].
  induction Hrows as [|r x rows xs Hx _ IH]; simpl; [constructor|].
  apply Forall_app. split.
  - unfold row_result in Hx.
    destruct (index_get r key_col_idx) as [key|e] eqn:Ek; simpl in Hx; [|discriminate Hx].
    destruct (index_get r idx) as [cell|e] eqn:Ec; simpl in Hx; [|discriminate Hx].
    injection Hx as <-. simpl. apply index_get_Ok in Ek.
    apply Forall_forall. intros rec Hrec. unfold rejected_of in Hrec.
    apply in_flat_map in Hrec as (part & _ & Hrec).
    exists r. split; [now left|]. eapply rejected_entry_record; eauto.
  - eapply Forall_impl; [|exact IH]. intros rec (r0 & Hr0 & Hrec).
    exists r0. split; [now right | exact Hrec].
Qed.

Lemma rejected_records_keep_key_witness :
  exists recs,
    [rejected_header;
     [PStr "US1"; PStr "(canceled)"; PStr "cancel, probable dependent"];
     [PStr "US1"; PStr "This invention relates to a computer program.";
      PStr "CRM, probable dependent"]]
    = rejected_header :: recs
    /\ Forall (fun rec => exists r, In r (sheet_rows demo_sheet) /\ record_of_row r rec)
              recs.
Proof.
  apply (rejected_records_keep_key demo_sheet
           [[PStr "Publication Number"; PStr "Independent Claims"; PStr "Title"];
            [PStr "US1"; PStr "Claim 1 is valid."; PStr "T1"];
            [PStr "US2"; PStr ""; PInt 7];
            [PStr "US3"; PStr "a |  | b"; PBool true]]).
  vm_compute. reflexivity.
Defined.

Lemma join_ascii_only (l : list string) :
  Forall (fun t => ascii_only t = true) l -> ascii_only (join " | " l) = true.
Proof.
  unfold ascii_only. induction 1 as [|t l Ht Hl IH]; [reflexivity|].
  destruct l as [|t' l]; [exact Ht|].
  change (join " | " (t :: t' :: l)) with (t ++ " | " ++ join " | " (t' :: l))%string.
  rewrite !str_forall_app, Ht, IH. reflexivity.
Qed.

(** X8: in a run that succeeds, the claim column of every row of the first
    output sheet holds a string, made of ASCII characters only, whatever the
    cell held before. *)
Theorem cleaned_cells_are_ascii (ws : sheet) (updated rej : list row) :
  process_details_sheet ws = Ok (updated, rej) ->
  exists idx rows',
    index_of claim_col_name (sheet_header ws) = Some idx
    /\ updated = sheet_header ws :: rows'
    /\ Forall (fun r' => exists t, nth_error r' idx = Some (PStr t)
                                   /\ ascii_only t = true) rows'.
Proof.
  intros H. apply process_details_sheet_Ok in H as (idx & xs & Hi & Hrows & -> & _).
  exists idx, (map fst xs). repeat split; auto.
  induction Hrows as [|r x rows xs Hx _ IH]; simpl; constructor; auto.
  destruct (row_result_partitioned idx r x Hx) as (key & cell & _ & _ & Hcell & _).
  eexists. split; [exact Hcell|].
  apply join_ascii_only.
  pose proof (kept_of_clean _ (fragments_pipe_free cell)) as Hk.
  eapply Forall_impl; [|exact Hk]. intros t Ht. apply Ht.
Qed.

Lemma cleaned_cells_are_ascii_witness :
  exists idx rows',
    index_of claim_col_name (sheet_header demo_sheet) = Some idx
    /\ [[PStr "Publication Number"; PStr "Independent Claims"; PStr "Title"];
        [PStr "US1"; PStr "Claim 1 is valid."; PStr "T1"];
        [PStr "US2"; PStr ""; PInt 7];
        [PStr "US3"; PStr "a |  | b"; PBool true]]
       = sheet_header demo_sheet :: rows'
    /\ Forall (fun r' => exists t, nth_error r' idx = Some (PStr t)
                                   /\ ascii_only t = true) rows'.
Proof.
  apply (cleaned_cells_are_ascii demo_sheet _
           [rejected_header;
            [PStr "US1"; PStr "(canceled)"; PStr "cancel, probable dependent"];
            [PStr "US1"; PStr "This invention relates to a computer program.";
             PStr "CRM, probable dependent"]]).
  vm_compute. reflexivity.
Defined.

(** ** Running the details transformation again *)

Lemma lstrip_idempotent (s : string) : lstrip (lstrip s) = lstrip s.
Proof.
  induction s as [|c s IH]; simpl; [reflexivity|].
  destruct (is_space c) eqn:E; [exact IH|]. simpl. now rewrite E.
Qed.

Lemma rstrip_cons (c : ascii) (s : string) :
  rstrip (String c s)
  = match rstrip s with
    | EmptyString => if is_space c then EmptyString else String c EmptyString
    | r => String c r
    end.
Proof. reflexivity. Qed.

Lemma rstrip_idempotent (s : string) : rstrip (rstrip s) = rstrip s.
Proof.
  induction s as [|c s IH]; [reflexivity|].
  rewrite rstrip_cons. destruct (rstrip s) as [|c' r] eqn:E.
  - destruct (is_space c) eqn:Ec; [reflexivity|].
    rewrite rstrip_cons. simpl. now rewrite Ec.
  - rewrite rstrip_cons, IH. reflexivity.
Qed.

Lemma strip_idempotent (s : string) : strip (strip s) = strip s.
Proof.
  unfold strip.
  rewrite <- (rstrip_lstrip_comm (lstrip s)), lstrip_idempotent.
  apply rstrip_idempotent.
Qed.

Lemma strip_clean_kept (t : string) : clean_kept t -> clean_kept (strip t).
Proof.
  intros (Ha & Hp & Hr). repeat split.
  - now apply str_forall_strip.
  - now apply str_forall_strip.
  - destruct (strip_inside t) as (u & v & E). rewrite E in Hr.
    now apply (reject_condition_inside u (strip t) v).
Qed.

(** A kept text between white space is kept again, trimmed. *)
Lemma kept_entry_padded (a t b : string) :
  str_forall is_space a = true -> str_forall is_space b = true ->
  clean_kept t -> kept_entry (a ++ t ++ b) = [strip t].
Proof.
  intros Ha Hb Ht. pose proof (strip_clean_kept t Ht) as (_ & _ & Hrej).
  destruct Ht as (Hascii & _ & _).
  unfold kept_entry, clean_claim_text.
  destruct (a ++ t ++ b =? "")%string eqn:E.
  - apply String.eqb_eq in E. simpl.
    rewrite <- (strip_padded a t b Ha Hb), E. reflexivity.
  - rewrite rejected_tags_of, (strip_padded a t b Ha Hb),
      (strip_ascii_only t Hascii), Hrej. reflexivity.
Qed.

Lemma split_aux_spaced (t rest cur : string) :
  pipe_free t = true ->
  split_aux "|" cur (t ++ " | " ++ rest)
  = (cur ++ t ++ " ")%string :: split_aux "|" " " rest.
Proof.
  intros Ht. rewrite split_aux_app_free by exact Ht.
  simpl. now rewrite append_assoc.
Qed.

Lemma kept_of_cons (p : string) (ps : list string) :
  kept_of (p :: ps) = kept_entry p ++ kept_of ps.
Proof. reflexivity. Qed.

Lemma kept_of_split_join (ts : list string) :
  forall t cur,
    str_forall is_space cur = true ->
    Forall clean_kept (t :: ts) ->
    kept_of (split_aux "|" cur (join " | " (t :: ts))) = map strip (t :: ts).
Proof.
  induction ts as [|t' ts IH]; intros t cur Hcur Hall;
    inversion Hall as [|? ? Ht Hrest]; subst.
  - cbn [join]. rewrite <- (append_nil_r t) at 1.
    rewrite split_aux_app_free by apply Ht. cbn [split_aux].
    rewrite kept_of_cons. cbn [map]. change (kept_of []) with (@nil string).
    rewrite app_nil_r. rewrite <- (append_nil_r t) at 1.
    now apply (kept_entry_padded cur t "").
  - change (join " | " (t :: t' :: ts))
      with (t ++ " | " ++ join " | " (t' :: ts))%string.
    rewrite split_aux_spaced by apply Ht.
    rewrite kept_of_cons, (IH t' " " eq_refl Hrest).
    now rewrite (kept_entry_padded cur t " ") by auto.
Qed.

(** What a run keeps of a cell rebuilt by an earlier run. *)
Lemma kept_of_rebuilt (ks : list string) :
  Forall clean_kept ks ->
  kept_of (fragments (PStr (join " | " ks)))
  = if join " | " ks =? "" then [] else map strip ks.
Proof.
  intros Hall. unfold fragments, truthy.
  destruct (join " | " ks =? "") eqn:E; [reflexivity|]. cbn [negb py_str].
  destruct ks as [|t ts]; [discriminate E|].
  unfold split. now apply kept_of_split_join.
Qed.

Lemma map_strip_fixed (ks : list string) : map strip (map strip ks) = map strip ks.
Proof.
  rewrite map_map. apply map_ext. intros t. apply strip_idempotent.
Qed.

Lemma set_nth_twice {A : Type} (i : nat) (v w : A) (l : list A) :
  set_nth i v (set_nth i w l) = set_nth i v l.
Proof.
  revert i. induction l as [|a l IH]; intros [|i]; simpl; auto. now rewrite IH.
Qed.

(** The cell a second run builds is built again by a third. *)
Lemma rebuilt_twice_fixed (ks : list string) :
  Forall clean_kept ks ->
  let ks2 := kept_of (fragments (PStr (join " | " ks))) in
  Forall clean_kept ks2
  /\ join " | " (kept_of (fragments (PStr (join " | " ks2)))) = join " | " ks2.
Proof.
  intros Hall. cbv zeta. rewrite (kept_of_rebuilt ks Hall).
  assert (Hs : Forall clean_kept (map strip ks)).
  { apply Forall_forall. intros t Ht. apply in_map_iff in Ht as (t0 & <- & Ht0).
    rewrite Forall_forall in Hall. apply strip_clean_kept. auto. }
  destruct (join " | " ks =? "") eqn:E.
  - split; [constructor | reflexivity].
  - split; [exact Hs|]. rewrite (kept_of_rebuilt _ Hs).
    destruct (join " | " (map strip ks) =? "") eqn:E2.
    + apply String.eqb_eq in E2. now rewrite E2.
    + now rewrite map_strip_fixed.
Qed.

Lemma row_result_inv (idx : nat) (r : row) (x : row * list row) :
  row_result idx r = Ok x ->
  exists key cell,
    index_get r key_col_idx = Ok key /\ index_get r idx = Ok cell
    /\ x = (set_nth idx (PStr (join " | " (kept_of (fragments cell)))) r,
            rejected_of key (fragments cell)).
Proof.
  unfold row_result. intros H.
  destruct (index_get r key_col_idx) as [key|e]; simpl in H; [|discriminate H].
  destruct (index_get r idx) as [cell|e]; simpl in H; [|discriminate H].
  injection H as <-. eauto.
Qed.

Lemma row_result_third (idx : nat) (r : row) (x1 x2 : row * list row) :
  row_result idx r = Ok x1 ->
  row_result idx (fst x1) = Ok x2 ->
  row_result idx (fst x2) = Ok (fst x2, []).
Proof.
  intros H1 H2.
  apply row_result_inv in H1 as (key & cell & Hk & Hc & ->). cbn [fst] in H2.
  set (ks := kept_of (fragments cell)) in *.
  assert (Hks : Forall clean_kept ks) by apply kept_of_clean, fragments_pipe_free.
  apply row_result_inv in H2 as (key2 & cell2 & Hk2 & Hc2 & ->). cbn [fst].
  rewrite (index_get_set_nth_eq idx (PStr (join " | " ks)) r cell Hc) in Hc2.
  injection Hc2 as <-.
  destruct (rebuilt_twice_fixed ks Hks) as [Hks2 Hfix].
  set (ks2 := kept_of (fragments (PStr (join " | " ks)))) in *.
  unfold row_result.
  destruct (index_get_set_nth_total idx key_col_idx (PStr (join " | " ks2))
              _ key2 Hk2) as [key3 ->].
  rewrite set_nth_twice.
  rewrite (index_get_set_nth_eq idx (PStr (join " | " ks2)) r cell Hc).
  cbn [bind]. rewrite Hfix, rebuilt_cell_not_rejected by exact Hks2.
  rewrite <- (set_nth_twice idx (PStr (join " | " ks2)) (PStr (join " | " ks2)) r)
    at 2.
  reflexivity.
Qed.

Lemma rows_third (idx : nat) (rows : list row) (xs1 : list (row * list row)) :
  Forall2 (fun r x => row_result idx r = Ok x) rows xs1 ->
  forall xs2,
    Forall2 (fun r x => row_result idx r = Ok x) (map fst xs1) xs2 ->
    exists ys, map_result (row_result idx) (map fst xs2) = Ok ys
               /\ map fst ys = map fst xs2 /\ flat_map snd ys = [].
Proof.
  induction 1 as [|r x1 rows xs1 H1 _ IH]; intros xs2 H2; simpl in H2;
    inversion H2 as [|? x2 ? xs2' Hx2 Hrest]; subst; simpl.
  - exists []. auto.
  - rewrite (row_result_third idx r x1 x2 H1 Hx2). cbn [bind].
    destruct (IH xs2' Hrest) as (ys & -> & Hfst & Hsnd). cbn [bind].
    exists ((fst x2, []) :: ys). simpl. rewrite Hfst, Hsnd. auto.
Qed.

(** X9: the output of a second run is a fixed point: when a run succeeds
    and a second run on its first sheet succeeds, a third run on the first
    sheet of the second gives that same sheet back and rejects nothing. *)
Theorem third_run_changes_nothing (ws : sheet) (u1 r1 u2 r2 : list row) :
  process_details_sheet ws = Ok (u1, r1) ->
  process_details_sheet (reload u1) = Ok (u2, r2) ->
  process_details_sheet (reload u2) = Ok (u2, [rejected_header]).
Proof.
  intros H1 H2.
  apply process_details_sheet_Ok in H1 as (idx & xs1 & Hi & Hrows1 & -> & _).
  apply process_details_sheet_Ok in H2 as (idx2 & xs2 & Hi2 & Hrows2 & -> & _).
  simpl in Hi2, Hrows2. rewrite Hi in Hi2. injection Hi2 as <-.
  destruct (rows_third idx _ xs1 Hrows1 xs2 Hrows2) as (ys & Hys & Hfst & Hsnd).
  unfold process_details_sheet. simpl. rewrite Hi, for_each_row_step, Hys.
  cbn [bind]. simpl. now rewrite Hfst, Hsnd.
Qed.

Lemma third_run_changes_nothing_witness :
  process_details_sheet
    (reload [[PStr "K"; PStr "Independent Claims"];
             [PStr "US1"; PStr "a widget | b"]])
  = Ok ([[PStr "K"; PStr "Independent Claims"];
         [PStr "US1"; PStr "a widget | b"]], [rejected_header]).
Proof.
  apply (third_run_changes_nothing
           (mkSheet [PStr "K"; PStr "Independent Claims"]
                    [[PStr "US1"; PStr (String (ascii_of_N 233) " a widget | b|(canceled)")]])
           [[PStr "K"; PStr "Independent Claims"];
            [PStr "US1"; PStr " a widget | b"]]
           [rejected_header; [PStr "US1"; PStr "(canceled)"; PStr "cancel, probable dependent"]]
           _ [rejected_header]).
  - vm_compute. reflexivity.
  - vm_compute. reflexivity.
Defined.

(** A second run can still change a cell: trimming comes before the
    removal of non-ASCII characters, so a kept text can start with a
    space. *)
Example ex_second_run_differs :
  kept_of (fragments (PStr (String (ascii_of_N 233) " a widget"))) = [" a widget"]
  /\ kept_of (fragments (PStr " a widget")) = ["a widget"].
Proof. split; vm_compute; reflexivity. Qed.

(** ** The info sheet: rows, family id and members *)

Lemma map_result_length {A B : Type} (f : A -> result B) (l : list A) (ys : list B) :
  map_result f l = Ok ys -> List.length ys = List.length l.
Proof.
  intros H. apply map_result_Ok in H. induction H; simpl; congruence.
Qed.

Lemma pyval_is_str_eq (v : pyval) (s : string) :
  pyval_is_str v s = true <-> v = PStr s.
Proof.
  destruct v; simpl; try (split; [discriminate | discriminate]).
  rewrite String.eqb_eq. split; congruence.
Qed.

Lemma merge_left_length (fam : list family_row) (b : base_row) :
  (1 <= List.length (merge_left fam b))%nat
  /\ (NoDup (map f_pub fam) -> List.length (merge_left fam b) = 1%nat).
Proof.
  unfold merge_left. split.
  - destruct (filter _ fam); simpl; lia.
  - intros Hnd.
    assert (H : (List.length (filter (fun f => pyval_is_str (f_pub f) (b_pub b)) fam)
                 <= 1)%nat).
    { induction fam as [|f fam IH]; simpl; [lia|].
      inversion Hnd as [|? ? Hnotin Hnd']; subst.
      destruct (pyval_is_str (f_pub f) (b_pub b)) eqn:E; [|now apply IH].
      apply pyval_is_str_eq in E. simpl.
      assert (Hnil : filter (fun f0 => pyval_is_str (f_pub f0) (b_pub b)) fam = []).
      { destruct (filter _ fam) as [|g gs] eqn:Eg; [reflexivity|].
        assert (Hg : In g (filter (fun f0 => pyval_is_str (f_pub f0) (b_pub b)) fam))
          by (rewrite Eg; now left).
        apply filter_In in Hg as [Hg Hgp]. apply pyval_is_str_eq in Hgp.
        exfalso. apply Hnotin. rewrite E, <- Hgp. now apply in_map. }
      rewrite Hnil. simpl. lia. }
    destruct (filter _ fam) as [|g [|g' gs]]; simpl in *; try reflexivity; lia.
Qed.

Lemma flat_map_length_ge {A B : Type} (g : A -> list B) (l : list A) :
  (forall x, 1 <= List.length (g x))%nat ->
  (List.length l <= List.length (flat_map g l))%nat.
Proof.
  intros H. induction l as [|x l IH]; simpl; [lia|].
  rewrite length_app. specialize (H x). lia.
Qed.

Lemma flat_map_length_eq {A B : Type} (g : A -> list B) (l : list A) :
  (forall x, List.length (g x) = 1%nat) ->
  List.length (flat_map g l) = List.length l.
Proof.
  intros H. induction l as [|x l IH]; simpl; [reflexivity|].
  rewrite length_app, H, IH. reflexivity.
Qed.

(** X10: the seed count returned by the build is the number of metadata
    rows whose 'Seed?' equals True; the sheet has at least that many rows,
    and exactly that many when no publication number occurs twice in the
    family table (the left merge repeats a seed row once per match). *)
Theorem seed_count_and_rows (rt : runtime) (meta : list meta_row)
        (fam : list family_row) (df_cleaned : sheet)
        (rows : list info_row) (n : nat) :
  process_info_sheet rt meta fam df_cleaned = Ok (rows, n) ->
  n = List.length (filter (fun m => is_seed (m_seed m)) meta)
  /\ (n <= List.length rows)%nat
  /\ (NoDup (map f_pub fam) -> List.length rows = n).
Proof.
  intros H. apply process_info_sheet_Ok in H as (base & Hbase & Hrows & ->).
  apply map_result_length in Hbase, Hrows. rewrite Hrows, <- Hbase.
  repeat split.
  - apply flat_map_length_ge. intros b. apply merge_left_length.
  - intros Hnd. apply flat_map_length_eq. intros b. now apply merge_left_length.
Qed.

Lemma seed_count_and_rows_witness :
  1%nat = List.length (filter (fun m => is_seed (m_seed m)) demo_meta)
  /\ (1 <= List.length [mkInfo "US123" "APP1" (PStr "Simple1") "US555|US999" (Some 3%Z)])%nat
  /\ (NoDup (map f_pub demo_family) ->
      List.length [mkInfo "US123" "APP1" (PStr "Simple1") "US555|US999" (Some 3%Z)]
      = 1%nat).
Proof.
  apply (seed_count_and_rows pandas_3 demo_meta demo_family demo_cleaned).
  vm_compute. reflexivity.
Defined.

Lemma merge_left_family_id (fam : list family_row) (b b' : base_row) (fid : pyval) :
  In (b', fid) (merge_left fam b) ->
  (exists f, In f fam /\ f_pub f = PStr (b_pub b) /\ fid = f_family_id f)
  \/ ((forall f, In f fam -> f_pub f <> PStr (b_pub b)) /\ fid = PNaN).
Proof.
  unfold merge_left.
  destruct (filter (fun f => pyval_is_str (f_pub f) (b_pub b)) fam) as [|g gs] eqn:E.
  - simpl. intros [H | []]. injection H as _ <-. right. split; [|reflexivity].
    intros f Hf Hp.
    assert (Hin : In f (filter (fun f => pyval_is_str (f_pub f) (b_pub b)) fam)).
    { apply filter_In. split; [exact Hf|]. now apply pyval_is_str_eq. }
    rewrite E in Hin. exact Hin.
  - intros H. apply in_map_iff in H as (f & Hf & Hin). injection Hf as _ <-.
    rewrite <- E in Hin. apply filter_In in Hin as [Hin Hp].
    apply pyval_is_str_eq in Hp. left. eauto.
Qed.

(** X11: the INPADOC Family ID of an output row is the 'Simple Family Id'
    of a row of the family table with the same publication number, and the
    missing value when the family table has no such row. *)
Theorem family_id_from_family_table (rt : runtime) (meta : list meta_row)
        (fam : list family_row) (df_cleaned : sheet)
        (rows : list info_row) (n : nat) (r : info_row) :
  process_info_sheet rt meta fam df_cleaned = Ok (rows, n) ->
  In r rows ->
  (exists f, In f fam /\ f_pub f = PStr (i_pub r) /\ i_family_id r = f_family_id f)
  \/ ((forall f, In f fam -> f_pub f <> PStr (i_pub r)) /\ i_family_id r = PNaN).
Proof.
  intros H Hin. apply process_info_sheet_Ok in H as (base & _ & Hrows & _).
  apply map_result_Ok in Hrows.
  destruct (Forall2_In_r _ _ _ _ Hrows Hin) as ([b fid] & Hbf & Hfin).
  apply in_flat_map in Hbf as (b0 & _ & Hbf).
  pose proof (merge_left_base _ _ _ _ Hbf) as ->.
  apply finish_Ok in Hfin as (-> & _ & -> & _).
  now apply (merge_left_family_id fam b0 b0).
Qed.

Lemma family_id_from_family_table_witness :
  (exists f, In f demo_family /\ f_pub f = PStr "US123"
             /\ PStr "Simple1" = f_family_id f)
  \/ ((forall f, In f demo_family -> f_pub f <> PStr "US123")
      /\ PStr "Simple1" = PNaN).
Proof.
  apply (family_id_from_family_table pandas_3 demo_meta demo_family demo_cleaned
           [mkInfo "US123" "APP1" (PStr "Simple1") "US555|US999" (Some 3%Z)] 1%nat
           (mkInfo "US123" "APP1" (PStr "Simple1") "US555|US999" (Some 3%Z))).
  - vm_compute. reflexivity.
  - left. reflexivity.
Defined.

Lemma earliest_row_none (a : string) (l : list family_row) :
  (forall f, In f l -> f_app f <> a) -> earliest_row a l = None.
Proof.
  induction l as [|x l IH]; simpl; [reflexivity|]. intros H.
  destruct (f_app x =? a) eqn:E.
  - apply String.eqb_eq in E. exfalso. apply (H x); auto.
  - apply IH. intros f Hf. apply H. now right.
Qed.

Lemma base_members_present (rt : runtime) (ext : pyval) :
  is_missing ext = false -> base_members rt ext = PStr (py_str ext).
Proof.
  intros H. unfold base_members, astype_str. rewrite H, andb_false_r. reflexivity.
Qed.

(** X12: when the family table has no row for the application number of
    an output row, the members of the row are those of the base info
    sheet, unchanged: for a seed row whose 'extended family members' is not
    missing, the string form of that field. *)
Theorem members_unchanged_without_family (rt : runtime) (meta : list meta_row)
        (fam : list family_row) (df_cleaned : sheet)
        (rows : list info_row) (n : nat) (r : info_row) :
  process_info_sheet rt meta fam df_cleaned = Ok (rows, n) ->
  In r rows ->
  (forall f, In f fam -> f_app f <> i_app r) ->
  exists m, In m meta /\ is_seed (m_seed m) = true
            /\ i_pub r = m_seed_patent m
            /\ i_members r = py_str (base_members rt (m_ext m))
            /\ (is_missing (m_ext m) = false -> i_members r = py_str (m_ext m)).
Proof.
  intros Hrun Hr Hno.
  destruct (info_row_origin _ _ _ _ _ _ _ Hrun Hr)
    as (m & Hm & Hs & Hpub & Happ & _ & Hmem).
  unfold concat_published in Hmem.
  rewrite earliest_pub_map_get, <- Happ, (earliest_row_none _ _ Hno) in Hmem.
  simpl in Hmem. injection Hmem as Hmem.
  exists m. repeat split; auto.
  intros Hpresent. now rewrite <- Hmem, (base_members_present rt _ Hpresent).
Qed.

Lemma members_unchanged_without_family_witness :
  exists m, In m demo_meta /\ is_seed (m_seed m) = true
            /\ "US123" = m_seed_patent m
            /\ "US999" = py_str (base_members pandas_2 (m_ext m))
            /\ (is_missing (m_ext m) = false -> "US999" = py_str (m_ext m)).
Proof.
  apply (members_unchanged_without_family pandas_2 demo_meta
           [mkFamily (PStr "US123") (PStr "Simple1") "APP9" (Some 20200101%Z)]
           demo_cleaned
           [mkInfo "US123" "APP1" (PStr "Simple1") "US999" (Some 3%Z)] 1%nat
           (mkInfo "US123" "APP1" (PStr "Simple1") "US999" (Some 3%Z))).
  - vm_compute. reflexivity.
  - left. reflexivity.
  - intros f [<- | []]. discriminate.
Defined.

Lemma to_set_spec (l : list string) :
  NoDup (to_set l) /\ forall x, In x (to_set l) <-> In x l.
Proof.
  induction l as [|y l [IHn IHi]]; simpl.
  - split; [constructor | reflexivity].
  - destruct (mem y l) eqn:E.
    + split; [exact IHn|]. intros x. rewrite IHi. split; [auto|].
      intros [<- | H]; [now apply mem_In | exact H].
    + split.
      * constructor; [|exact IHn]. rewrite IHi. intros H.
        apply mem_In in H. congruence.
      * intros x. simpl. now rewrite IHi.
Qed.

Lemma insert_str_NoDup (x : string) (l : list string) :
  ~ In x l -> NoDup l -> NoDup (insert_str x l).
Proof.
  induction l as [|y l IH]; simpl; intros Hx Hnd.
  - constructor; [auto | constructor].
  - destruct (String.leb x y).
    + constructor; [exact Hx | exact Hnd].
    + inversion Hnd as [|? ? Hy Hl]; subst. constructor.
      * rewrite insert_str_In. intros [-> | H]; [apply Hx; now left | auto].
      * apply IH; auto.
Qed.

Lemma sorted_NoDup (l : list string) : NoDup l -> NoDup (sorted l).
Proof.
  induction 1 as [|x l Hx _ IH]; simpl; [constructor|].
  apply insert_str_NoDup; [|exact IH]. now rewrite sorted_In.
Qed.

Lemma leb_false_flip (x y : string) : String.leb x y = false -> String.leb y x = true.
Proof.
  intros H. destruct (String.leb_total x y) as [E | E]; congruence.
Qed.

Lemma insert_str_ascending (x : string) (l : list string) :
  ascending l -> ascending (insert_str x l).
Proof.
  unfold ascending. induction 1 as [|y l Hs IH Hy]; simpl.
  - repeat constructor.
  - destruct (String.leb x y) eqn:E.
    + constructor; [now constructor | now constructor].
    + constructor; [exact IH|].
      destruct l as [|z l]; simpl.
      * constructor. now apply leb_false_flip.
      * destruct (String.leb x z); constructor.
        -- now apply leb_false_flip.
        -- now inversion Hy.
Qed.

Lemma sorted_ascending (l : list string) : ascending (sorted l).
Proof.
  induction l as [|x l IH]; simpl; [constructor|]. now apply insert_str_ascending.
Qed.

Lemma concat_published_text (d : dict) (existing app pub : string) :
  dict_get d app = Some (PStr pub) -> pub <> "" ->
  concat_published d existing app
  = Ok (join "|" (sorted (members_set existing pub))).
Proof.
  intros Hget Hne. unfold concat_published. rewrite Hget. simpl.
  now rewrite (eqb_empty_false _ Hne).
Qed.

(** X13: when the dictionary gives a publication number that is a text
    and is not empty, [concat_published] returns the pipe-join of a list in
    ascending order, without repetition, whose elements are that number and
    the members the row had (the pieces of the old value between pipes,
    none for the empty value): no member is lost and none is added besides
    the number. *)
Theorem members_sorted_unique (d : dict) (existing app pub : string) :
  dict_get d app = Some (PStr pub) ->
  pub <> "" ->
  exists l,
    concat_published d existing app = Ok (join "|" l)
    /\ ascending l /\ NoDup l
    /\ forall x, In x l <-> x = pub \/ (existing <> "" /\ In x (split "|" existing)).
Proof.
  intros Hget Hne. exists (sorted (members_set existing pub)).
  split; [now apply concat_published_text|]. split; [apply sorted_ascending|].
  set (old := if existing =? "" then [] else to_set (split "|" existing)).
  assert (Hold : NoDup old
                 /\ forall x, In x old <-> existing <> "" /\ In x (split "|" existing)).
  { unfold old. destruct (existing =? "") eqn:E.
    - apply String.eqb_eq in E. split; [constructor|]. intros x. simpl. intuition.
    - apply String.eqb_neq in E. destruct (to_set_spec (split "|" existing)) as [Hn Hi].
      split; [exact Hn|]. intros x. rewrite Hi. intuition. }
  destruct Hold as [Hnd Hin].
  assert (Hset : NoDup (members_set existing pub)
                 /\ forall x, In x (members_set existing pub) <-> x = pub \/ In x old).
  { unfold members_set. fold old. destruct (mem pub old) eqn:E.
    - split; [exact Hnd|]. intros x. split; [auto|].
      intros [-> | H]; [now apply mem_In | exact H].
    - split.
      + constructor; [|exact Hnd]. intros H. apply mem_In in H. congruence.
      + intros x. simpl. intuition. }
  destruct Hset as [Hnd' Hin']. split; [now apply sorted_NoDup|].
  intros x. now rewrite sorted_In, Hin', Hin.
Qed.

Lemma members_sorted_unique_witness :
  exists l,
    concat_published [("APP1", PStr "US555")] "US999|US123|US999" "APP1"
    = Ok (join "|" l)
    /\ ascending l /\ NoDup l
    /\ forall x, In x l
                 <-> x = "US555"
                     \/ ("US999|US123|US999" <> "" /\ In x (split "|" "US999|US123|US999")).
Proof.
  apply members_sorted_unique.
  - reflexivity.
  - discriminate.
Defined.

Lemma earliest_row_head (a : string) (x : family_row) (l : list family_row) :
  f_app x = a ->
  (forall y, In y l -> f_app y = a -> date_leb (f_date x) (f_date y) = true) ->
  earliest_row a (x :: l) = Some x.
Proof.
  intros Ha H. simpl. rewrite Ha, String.eqb_refl.
  destruct (earliest_row a l) as [y|] eqn:E; [|reflexivity].
  destruct (earliest_row_Some a l y E) as (Hy & Hya & _).
  now rewrite (H y Hy Hya).
Qed.

(** X14: the dictionary of earliest publications binds an application
    number to the publication of the row [x] of the family table when
    every row of that application before [x] comes strictly after it in
    the date order (a missing date being last) and every such row after
    [x] does not come before it: among rows with the same date the first in
    the table wins. *)
Theorem earliest_pub_map_choice (l1 l2 : list family_row) (x : family_row) :
  (forall y, In y l1 -> f_app y = f_app x ->
             date_leb (f_date y) (f_date x) = false) ->
  (forall y, In y l2 -> f_app y = f_app x ->
             date_leb (f_date x) (f_date y) = true) ->
  dict_get (earliest_pub_map (l1 ++ x :: l2)) (f_app x) = Some (f_pub x).
Proof.
  intros H1 H2. rewrite earliest_pub_map_get.
  assert (E : earliest_row (f_app x) (l1 ++ x :: l2) = Some x).
  { induction l1 as [|y l1 IH].
    - now apply earliest_row_head.
    - cbn [app earliest_row]. rewrite IH by (intros z Hz; apply H1; now right).
      destruct (f_app y =? f_app x) eqn:Ey; [|reflexivity].
      apply String.eqb_eq in Ey. now rewrite (H1 y (or_introl eq_refl) Ey). }
  now rewrite E.
Qed.

Lemma earliest_pub_map_choice_witness :
  dict_get
    (earliest_pub_map
       ([mkFamily (PStr "US1") PNaN "APP1" None;
         mkFamily (PStr "US2") PNaN "APP1" (Some 7%Z);
         mkFamily (PStr "US9") PNaN "APP2" (Some 1%Z)]
        ++ mkFamily (PStr "US3") PNaN "APP1" (Some 5%Z)
        :: [mkFamily (PStr "US4") PNaN "APP1" (Some 5%Z);
            mkFamily (PStr "US5") PNaN "APP1" None]))
    "APP1"
  = Some (PStr "US3").
Proof.
  apply (earliest_pub_map_choice
           [mkFamily (PStr "US1") PNaN "APP1" None;
            mkFamily (PStr "US2") PNaN "APP1" (Some 7%Z);
            mkFamily (PStr "US9") PNaN "APP2" (Some 1%Z)]
           [mkFamily (PStr "US4") PNaN "APP1" (Some 5%Z);
            mkFamily (PStr "US5") PNaN "APP1" None]
           (mkFamily (PStr "US3") PNaN "APP1" (Some 5%Z))).
  - intros y [<- | [<- | [<- | []]]] E; try reflexivity. discriminate E.
  - intros y [<- | [<- | []]] E; reflexivity.
Defined.

(** ** Claim numbers held as integers *)

Lemma digit_char (k : N) :
  (k < 10)%N ->
  is_digit (ascii_of_N (48 + k)) = true /\ ord (ascii_of_N (48 + k)) = (48 + k)%N.
Proof.
  intros Hk. unfold is_digit, ord.
  rewrite N_ascii_embedding by lia. split; [|reflexivity].
  apply andb_true_intro. split; apply N.leb_le; lia.
Qed.

Lemma decimal_value_ascii (rt : runtime) (k : N) :
  (k < 10)%N -> decimal_value rt (48 + k) = Some k.
Proof.
  intros Hk. unfold decimal_value.
  assert (H1 : (48 + k <? 128)%N = true) by (apply N.ltb_lt; lia).
  assert (H2 : (48 <=? 48 + k)%N = true) by (apply N.leb_le; lia).
  assert (H3 : (48 + k <=? 57)%N = true) by (apply N.leb_le; lia).
  rewrite H1, H2, H3. cbn [andb]. f_equal. lia.
Qed.

Lemma is_digit_decimal (rt : runtime) (c : ascii) :
  is_digit c = true -> is_decimal rt (ord c) = true.
Proof.
  unfold is_digit, is_decimal. intros H. apply andb_prop in H as [H1 H2].
  apply N.leb_le in H1, H2.
  replace (ord c) with (48 + (ord c - 48))%N by lia.
  rewrite decimal_value_ascii by lia. reflexivity.
Qed.

Lemma int_of_digits_app (rt : runtime) (t1 t2 : text) :
  forall acc,
    int_of_digits rt acc (t1 ++ t2) = int_of_digits rt (int_of_digits rt acc t1) t2.
Proof.
  induction t1 as [|c t1 IH]; intros acc; simpl; [reflexivity|]. apply IH.
Qed.

Lemma string_of_list_ascii_app (l1 l2 : list ascii) :
  string_of_list_ascii (l1 ++ l2)
  = (string_of_list_ascii l1 ++ string_of_list_ascii l2)%string.
Proof.
  induction l1 as [|c l1 IH]; simpl; congruence.
Qed.

Lemma str_forall_of_list (p : ascii -> bool) (l : list ascii) :
  Forall (fun c => p c = true) l -> str_forall p (string_of_list_ascii l) = true.
Proof.
  induction 1 as [|c l Hc _ IH]; simpl; [reflexivity|]. now rewrite Hc, IH.
Qed.

Lemma text_of_list (l : list ascii) : text_of (string_of_list_ascii l) = map ord l.
Proof.
  unfold text_of. now rewrite list_ascii_of_string_of_list_ascii.
Qed.

(** What [digits_rev] writes: digits, at least one. *)
Lemma digits_rev_digits (fuel : nat) :
  forall n : N,
    (0 < fuel)%nat ->
    digits_rev fuel n <> []
    /\ Forall (fun c => is_digit c = true) (digits_rev fuel n).
Proof.
  induction fuel as [|f IH]; intros n Hf; [lia|].
  cbn [digits_rev].
  assert (Hmod : (n mod 10 < 10)%N) by (apply N.mod_lt; lia).
  destruct (digit_char (n mod 10) Hmod) as [Hd _].
  destruct (n <? 10)%N.
  - split; [discriminate | now repeat constructor].
  - split; [discriminate|]. constructor; [exact Hd|].
    destruct f as [|f']; [constructor|]. apply IH. lia.
Qed.

(** The digits written by [digits_rev] are read back by [int_of_digits]. *)
Lemma digits_rev_value (rt : runtime) (fuel : nat) :
  forall n : N,
    (n < 2 ^ N.of_nat fuel)%N -> (0 < fuel)%nat ->
    int_of_digits rt 0 (map ord (rev (digits_rev fuel n))) = Z.of_N n.
Proof.
  induction fuel as [|f IH]; intros n Hn Hf; [lia|].
  cbn [digits_rev].
  assert (Hmod : (n mod 10 < 10)%N) by (apply N.mod_lt; lia).
  destruct (digit_char (n mod 10) Hmod) as [_ Hord].
  pose proof (decimal_value_ascii rt (n mod 10) Hmod) as Hval.
  destruct (n <? 10)%N eqn:E.
  - apply N.ltb_lt in E. rewrite N.mod_small in * by exact E.
    cbn [rev app map int_of_digits]. rewrite Hord, Hval. lia.
  - apply N.ltb_ge in E.
    rewrite Nat2N.inj_succ, N.pow_succ_r' in Hn.
    assert (Hf' : (0 < f)%nat).
    { destruct f; [simpl in Hn; lia | lia]. }
    assert (Hq : (n / 10 < 2 ^ N.of_nat f)%N).
    { apply N.Div0.div_lt_upper_bound; lia. }
    cbn [rev]. rewrite map_app, int_of_digits_app, (IH (n / 10)%N Hq Hf').
    cbn [map int_of_digits]. rewrite Hord, Hval.
    pose proof (N.div_mod n 10 ltac:(lia)) as Hdm. lia.
Qed.

Lemma string_of_N_digits (p : positive) :
  string_of_N (Npos p) <> ""
  /\ str_forall is_digit (string_of_N (Npos p)) = true.
Proof.
  unfold string_of_N.
  destruct (digits_rev_digits (S (N.to_nat (N.log2 (Npos p)))) (Npos p))
    as (Hne & Hall); [lia|].
  split.
  - intros H. apply Hne.
    destruct (digits_rev _ _) as [|c l]; [reflexivity|].
    apply (f_equal String.length) in H. simpl in H.
    rewrite string_of_list_ascii_app in H.
    assert (Hl : forall a b, String.length (a ++ b)
                             = (String.length a + String.length b)%nat).
    { intros a b. induction a; simpl; congruence. }
    rewrite Hl in H. simpl in H. lia.
  - apply str_forall_of_list. now apply Forall_rev.
Qed.

Lemma string_of_N_text (rt : runtime) (p : positive) :
  text_of (string_of_N (Npos p)) <> []
  /\ forallb (is_decimal rt) (text_of (string_of_N (Npos p))) = true
  /\ int_of_digits rt 0 (text_of (string_of_N (Npos p))) = Zpos p.
Proof.
  unfold string_of_N. rewrite text_of_list.
  set (fuel := S (N.to_nat (N.log2 (Npos p)))).
  destruct (digits_rev_digits fuel (Npos p)) as (Hne & Hall); [unfold fuel; lia|].
  repeat split.
  - intros H. apply Hne. apply map_eq_nil in H.
    destruct (digits_rev fuel (Npos p)) as [|c l]; [reflexivity|].
    simpl in H. now apply app_eq_nil in H as [_ H].
  - apply forallb_forall. intros c Hc. apply in_map_iff in Hc as (a & <- & Ha).
    apply is_digit_decimal. apply in_rev in Ha.
    rewrite Forall_forall in Hall. auto.
  - rewrite digits_rev_value; [reflexivity| |unfold fuel; lia].
    unfold fuel. rewrite Nat2N.inj_succ, N2Nat.id. apply N.log2_spec. lia.
Qed.

(** X15: an integer claim number is read back from its string form: the
    Claim Number of the integer [z] is its absolute value (the sign is not
    a digit), as long as it fits a signed 64-bit integer; otherwise the
    conversion overflows. *)
Theorem claim_number_of_integer (rt : runtime) (z : Z) :
  claim_number rt (ClaimInt z)
  = if (Z.abs z <=? int64_max)%Z then Ok (Some (Z.abs z)) else Err OverflowError.
Proof.
  unfold claim_number. cbn [claim_str]. destruct z as [|p|p]; [reflexivity| |].
  - destruct (string_of_N_text rt p) as (Hne & Hall & Hval).
    cbn [str_int].
    rewrite (extract_digits_first_run rt _ (Some (text_of (string_of_N (Npos p))))).
    + cbn [to_Int64 Z.abs]. now rewrite Hval.
    + apply (FirstRun_some rt _ [] (text_of (string_of_N (Npos p))) []); simpl; auto.
      now rewrite app_nil_r.
  - destruct (string_of_N_text rt p) as (Hne & Hall & Hval).
    cbn [str_int].
    rewrite (extract_digits_first_run rt _ (Some (text_of (string_of_N (Npos p))))).
    + cbn [to_Int64 Z.abs]. now rewrite Hval.
    + apply (FirstRun_some rt _ [45%N] (text_of (string_of_N (Npos p))) []);
        simpl; auto.
      now rewrite app_nil_r.
Qed.

(** ** Running [concat_published] on its own result *)

Lemma to_set_NoDup_id (l : list string) : NoDup l -> to_set l = l.
Proof.
  induction 1 as [|x l Hx _ IH]; simpl; [reflexivity|].
  destruct (mem x l) eqn:E; [apply mem_In in E; contradiction|]. now rewrite IH.
Qed.

Lemma sorted_of_ascending (l : list string) : ascending l -> sorted l = l.
Proof.
  unfold ascending. induction 1 as [|x l Hs IH Hx]; simpl; [reflexivity|].
  rewrite IH. destruct Hx as [|y l' Hxy]; simpl; [reflexivity|]. now rewrite Hxy.
Qed.

Lemma join_nonempty (sep : string) (x : string) (l : list string) :
  sep <> "" -> In x l -> x <> "" -> join sep l <> "".
Proof.
  intros Hsep Hin Hx. destruct l as [|y [|z l]]; simpl in *.
  - contradiction.
  - destruct Hin as [-> | []]. exact Hx.
  - destruct y; simpl; [|discriminate].
    destruct sep; [congruence | discriminate].
Qed.

Lemma members_sorted_unique_aux (existing pub : string) :
  pipe_free pub = true ->
  ascending (sorted (members_set existing pub))
  /\ NoDup (sorted (members_set existing pub))
  /\ In pub (sorted (members_set existing pub))
  /\ Forall (fun p => pipe_free p = true) (sorted (members_set existing pub)).
Proof.
  intros Hfree. split; [apply sorted_ascending|]. split; [|split].
  - apply sorted_NoDup. unfold members_set.
    set (old := if existing =? "" then [] else to_set (split "|" existing)).
    assert (Hnd : NoDup old).
    { unfold old. destruct (existing =? ""); [constructor | apply to_set_spec]. }
    destruct (mem pub old) eqn:E; [exact Hnd|].
    constructor; [|exact Hnd]. intros H. apply mem_In in H. congruence.
  - apply sorted_In, members_set_In.
  - apply Forall_forall. intros p Hp. apply (proj1 (sorted_In p _)) in Hp.
    pose proof (members_set_pipe_free existing pub Hfree) as Hall.
    rewrite Forall_forall in Hall. now apply Hall.
Qed.

Lemma concat_published_again (d : dict) (existing app s : string) :
  (forall pub, dict_get d app = Some (PStr pub) -> pipe_free pub = true) ->
  concat_published d existing app = Ok s ->
  concat_published d s app = Ok s.
Proof.
  intros Hfree H. unfold concat_published in *.
  destruct (dict_get d app) as [v|] eqn:Hget; [|reflexivity].
  destruct (negb (truthy v)) eqn:Ev; [reflexivity|].
  destruct v as [| |pub| |]; try discriminate H.
  specialize (Hfree pub eq_refl). injection H as <-.
  assert (Epub : pub <> "").
  { simpl in Ev. apply negb_false_iff, negb_true_iff in Ev. now apply String.eqb_neq. }
  destruct (members_sorted_unique_aux existing pub Hfree) as (Hasc & Hnd & Hin & Hpf).
  set (l := sorted (members_set existing pub)) in *.
  f_equal. f_equal. unfold members_set.
  rewrite (eqb_empty_false _ (join_nonempty "|" pub l ltac:(discriminate) Hin Epub)).
  assert (Hsplit : split "|" (join "|" l) = l).
  { destruct l as [|t ts]; [contradiction|].
    unfold split. now rewrite split_join_pipe_free. }
  rewrite Hsplit, (to_set_NoDup_id l Hnd).
  assert (Hmem : mem pub l = true) by now apply mem_In.
  rewrite Hmem. now apply sorted_of_ascending.
Qed.

(** X16: [concat_published] applied to its own result gives this result
    again (and an exception of the first call is all there is), provided
    the publication number of the dictionary, when it is a text, holds no
    pipe: the members are already a sorted set that holds it. *)
Theorem concat_published_idempotent (d : dict) (existing app : string) :
  (forall pub, dict_get d app = Some (PStr pub) -> pipe_free pub = true) ->
  (s <- concat_published d existing app ;; concat_published d s app)
  = concat_published d existing app.
Proof.
  intros Hfree.
  destruct (concat_published d existing app) as [s|e] eqn:E; cbn [bind];
    [|reflexivity].
  now apply (concat_published_again d existing app s).
Qed.

Lemma concat_published_idempotent_witness :
  (s <- concat_published [("APP1", PStr "US555")] "US999|US123|US999" "APP1" ;;
   concat_published [("APP1", PStr "US555")] s "APP1")
  = concat_published [("APP1", PStr "US555")] "US999|US123|US999" "APP1".
Proof.
  apply concat_published_idempotent.
  intros pub H. injection H as <-. reflexivity.
Defined.

(** ** Empty claim cells *)

(** X17: a data row whose claim cell is falsy (an empty cell, the empty
    string, the number 0 or False) gets the empty string in the claim
    column and adds no record to the rejected sheet; its other cells are
    left as they are. *)
Theorem falsy_cell_is_emptied (idx : nat) (r : row) (key cell : pyval)
        (updated_rows rejected_rows : list row) :
  nth_error r key_col_idx = Some key ->
  nth_error r idx = Some cell ->
  truthy cell = false ->
  row_step idx (updated_rows, rejected_rows) r
  = Ok (updated_rows ++ [set_nth idx (PStr "") r], rejected_rows).
Proof.
  intros Hk Hc Hf. unfold row_step, index_get. rewrite Hk, Hc. cbn [bind].
  unfold fragments. rewrite Hf. reflexivity.
Qed.

Lemma falsy_cell_is_emptied_witness :
  row_step 1 ([], [rejected_header]) [PStr "US2"; PInt 0; PStr "T"]
  = Ok ([] ++ [set_nth 1 (PStr "") [PStr "US2"; PInt 0; PStr "T"]], [rejected_header]).
Proof.
  apply (falsy_cell_is_emptied 1 [PStr "US2"; PInt 0; PStr "T"] (PStr "US2") (PInt 0));
    reflexivity.
Defined.

(** ** Numeric claim cells *)

Lemma int_char_facts (c : ascii) :
  int_char c = true ->
  is_space c = false /\ (ord c <? 128)%N = true
  /\ Ascii.eqb c "|" = false /\ is_upper c = false.
Proof.
  destruct c as [[] [] [] [] [] [] [] []]; vm_compute; intros H;
    first [discriminate H | repeat split; reflexivity].
Qed.

Lemma str_forall_impl (p q : ascii -> bool) (s : string) :
  (forall c, p c = true -> q c = true) ->
  str_forall p s = true -> str_forall q s = true.
Proof.
  intros Hpq. induction s as [|c s IH]; simpl; [reflexivity|].
  intros H. apply andb_prop in H as [Hc Hs]. now rewrite (Hpq c Hc), IH.
Qed.

Lemma str_map_id (f : ascii -> ascii) (p : ascii -> bool) (s : string) :
  (forall c, p c = true -> f c = c) -> str_forall p s = true -> str_map f s = s.
Proof.
  intros Hf. induction s as [|c s IH]; simpl; [reflexivity|].
  intros H. apply andb_prop in H as [Hc Hs]. now rewrite (Hf c Hc), IH.
Qed.

Lemma lstrip_no_space (s : string) : no_space s = true -> lstrip s = s.
Proof.
  unfold no_space. destruct s as [|c s]; simpl; [reflexivity|].
  intros H. apply andb_prop in H as [Hc _]. apply negb_true_iff in Hc.
  now rewrite Hc.
Qed.

Lemma rstrip_no_space (s : string) : no_space s = true -> rstrip s = s.
Proof.
  unfold no_space. induction s as [|c s IH]; [reflexivity|].
  intros H. simpl in H. apply andb_prop in H as [Hc Hs].
  apply negb_true_iff in Hc. rewrite rstrip_cons, (IH Hs), Hc. now destruct s.
Qed.

Lemma strip_no_space (s : string) : no_space s = true -> strip s = s.
Proof.
  intros H. unfold strip. rewrite (lstrip_no_space s H). now apply rstrip_no_space.
Qed.

(** A needle found in a text is made of characters of the text. *)
Lemma contains_chars (p : ascii -> bool) (n s : string) :
  contains n s = true -> str_forall p s = true -> str_forall p n = true.
Proof.
  intros H Hs. apply contains_split in H as (u & v & ->).
  rewrite !str_forall_app in Hs.
  apply andb_prop in Hs as [_ Hs]. now apply andb_prop in Hs as [Hn _].
Qed.

Lemma str_int_chars (z : Z) : z <> 0%Z -> str_int z <> "" /\ str_forall int_char (str_int z) = true.
Proof.
  intros Hz. destruct z as [|p|p]; [congruence| |];
    destruct (string_of_N_digits p) as (Hne & Hall); cbn [str_int].
  - split; [exact Hne|]. eapply str_forall_impl; [|exact Hall].
    intros c Hc. unfold int_char. now rewrite Hc.
  - split; [discriminate|]. cbn [append str_forall]. apply andb_true_intro. split.
    + reflexivity.
    + eapply str_forall_impl; [|exact Hall].
      intros c Hc. unfold int_char. now rewrite Hc.
Qed.

Lemma int_text_kept (s : string) :
  s <> "" -> str_forall int_char s = true ->
  split "|" s = [s] /\ kept_entry s = [s] /\ forall key, rejected_entry key s = [].
Proof.
  intros Hne Hs.
  assert (Hsp : no_space s = true).
  { unfold no_space. eapply str_forall_impl; [|exact Hs].
    intros c Hc. apply int_char_facts in Hc as (-> & _). reflexivity. }
  assert (Hascii : ascii_only s = true).
  { unfold ascii_only. eapply str_forall_impl; [|exact Hs].
    intros c Hc. now apply int_char_facts in Hc as (_ & -> & _). }
  assert (Hpipe : pipe_free s = true).
  { unfold pipe_free. eapply str_forall_impl; [|exact Hs].
    intros c Hc. apply int_char_facts in Hc as (_ & _ & -> & _). reflexivity. }
  assert (Hlow : lower s = s).
  { unfold lower. apply (str_map_id lower_char int_char); [|exact Hs].
    intros c Hc. apply int_char_facts in Hc as (_ & _ & _ & Hu).
    unfold lower_char. now rewrite Hu. }
  assert (Hrej : reject_condition s = false).
  { unfold reject_condition, crm_needles. simpl existsb. rewrite Hlow.
    assert (H : forall n, str_forall int_char n = false -> contains n s = false).
    { intros n Hn. destruct (contains n s) eqn:E; [|reflexivity].
      now rewrite (contains_chars int_char n s E Hs) in Hn. }
    rewrite !H by (vm_compute; reflexivity). reflexivity. }
  assert (Hclean : clean_claim_text (PStr s) = (s, tags_of s)).
  { unfold clean_claim_text. rewrite (eqb_empty_false s Hne), (strip_no_space s Hsp).
    unfold remove_non_ascii. now rewrite (str_filter_id _ s Hascii). }
  repeat split.
  - unfold split. rewrite <- (append_nil_r s) at 1.
    now rewrite split_aux_app_free by exact Hpipe.
  - unfold kept_entry. now rewrite Hclean, rejected_tags_of, Hrej.
  - intros key. unfold rejected_entry. now rewrite Hclean, rejected_tags_of, Hrej.
Qed.

(** X18: a data row whose claim cell holds an integer other than 0 gets the
    decimal text of the integer in the claim column, and no record is added
    to the rejected sheet. *)
Theorem integer_cell_becomes_text (idx : nat) (r : row) (key : pyval) (z : Z)
        (updated_rows rejected_rows : list row) :
  nth_error r key_col_idx = Some key ->
  nth_error r idx = Some (PInt z) ->
  z <> 0%Z ->
  row_step idx (updated_rows, rejected_rows) r
  = Ok (updated_rows ++ [set_nth idx (PStr (str_int z)) r], rejected_rows).
Proof.
  intros Hk Hc Hz. rewrite row_step_result. unfold row_result, index_get.
  rewrite Hk, Hc. cbn [bind fst snd].
  destruct (str_int_chars z Hz) as [Hne Hchars].
  destruct (int_text_kept (str_int z) Hne Hchars) as (Hsplit & Hkept & Hrej).
  assert (Hfrag : fragments (PInt z) = [str_int z]).
  { unfold fragments, truthy. apply Z.eqb_neq in Hz. rewrite Hz. exact Hsplit. }
  rewrite Hfrag. unfold kept_of, rejected_of. cbn [flat_map].
  rewrite Hkept, Hrej. simpl. now rewrite app_nil_r.
Qed.

Lemma integer_cell_becomes_text_witness :
  row_step 1 ([], [rejected_header]) [PStr "US2"; PInt (-42); PStr "T"]
  = Ok ([] ++ [set_nth 1 (PStr (str_int (-42))) [PStr "US2"; PInt (-42); PStr "T"]],
        [rejected_header]).
Proof.
  apply (integer_cell_becomes_text 1 [PStr "US2"; PInt (-42); PStr "T"] (PStr "US2")).
  - reflexivity.
  - reflexivity.
  - discriminate.
Defined.

(** ** Rows that are not seed rows *)



Example ex_overflow_in_other_row :
  process_info_sheet pandas_3
    [mkMeta (PBool false) "US7" "APP7" PNaN (ClaimText (text_of "99999999999999999999"));
     mkMeta (PBool true) "US123" "APP1" (PStr "US999") (ClaimText (text_of "Claim 3"))]
    [] demo_cleaned
  = Ok ([mkInfo "US123" "APP1" PNaN "US999" (Some 3%Z)], 1%nat).
Proof. vm_compute. reflexivity. Qed.

Example ex_missing_column :
  process_info_sheet pandas_3 demo_meta demo_family
    (mkSheet [PStr "Key"; PStr "Independent Claims"] [])
  = Err KeyError.
Proof. vm_compute. reflexivity. Qed.

Example ex_missing_publication_number :
  process_info_sheet pandas_3 demo_meta
    [mkFamily PNaN (PStr "S1") "APP1" (Some 20190601%Z);
     mkFamily (PStr "US777") (PStr "S2") "APP2" (Some 20180101%Z)] demo_cleaned
  = Err TypeError.
Proof. vm_compute. reflexivity. Qed.
